(** * add_x86_64_support.py: a shallow embedding and its verification

    The script patches a fixed set of Bazel BUILD files and one Python
    build script, adding an x86_64 simulator architecture.  This file
    embeds

    - the Python string primitives the script uses ([in], [str.replace],
      [str.split], [str.join], [str.strip], [str.lstrip],
      [str.startswith], slicing) and the fragment of [re.sub] it needs;
    - the line scanner inside [patch_genrule_build_files] that duplicates
      every [ios_sim_arm64] shell branch;
    - the filesystem effects ([os.path.exists], [open], [shutil.copy2],
      [print]) as a state-and-error monad over a finite map of files and
      an event log; a text-mode read translates [\r\n] and [\r] to
      [\n], [shutil.copy2] copies the stored content as it is;
    - the eight patch functions and [main].

    Characters are Rocq's 8-bit [ascii] (code points below 256). *)

From Stdlib Require Import Ascii String List Bool Arith Lia.
From stdpp Require Import base list strings gmap.

(** ** Python string primitives *)

Module Py.

(** Single characters that cannot be written inside a literal. *)
Definition NL : ascii := "010"%char.
Definition TAB : ascii := "009"%char.
Definition DQ : ascii := "034"%char.
Definition nl : string := String NL "".
Definition tab : string := String TAB "".
Definition dq : string := String DQ "".
Definition bs : string := String "092"%char "".

(** [str.isspace] on one character: the code points below 256 that
    Python treats as whitespace (also what [\s] matches in [re]). *)
Definition isspace (c : ascii) : bool :=
  let n := nat_of_ascii c in
  ((9 <=? n) && (n <=? 13)) || ((28 <=? n) && (n <=? 31))
  || (n =? 32) || (n =? 133) || (n =? 160).

(** [s.lstrip()] *)
Fixpoint lstrip (s : string) : string :=
  match s with
  | "" => ""
  | String c s' => if isspace c then lstrip s' else s
  end.

(** [s.rstrip()] *)
Fixpoint rstrip (s : string) : string :=
  match s with
  | "" => ""
  | String c s' =>
      match rstrip s' with
      | "" => if isspace c then "" else String c ""
      | r => String c r
      end
  end.

(** [s.strip()] *)
Definition strip (s : string) : string := rstrip (lstrip s).

(** [s.startswith(p)] *)
Definition startswith (s p : string) : bool := String.prefix p s.

(** [sub in s] *)
Fixpoint contains (sub s : string) : bool :=
  String.prefix sub s
  || match s with
     | "" => false
     | String _ s' => contains sub s'
     end.

(** Truthiness of a string: [bool(s)], i.e. [s != ''] *)
Definition truthy (s : string) : bool :=
  match s with "" => false | _ => true end.

(** [s[:n]] *)
Definition slice_to (n : nat) (s : string) : string := String.substring 0 n s.

(** The remainder of [s] after the prefix [p], when [s] starts with [p]. *)
Fixpoint strip_prefix (p s : string) : option string :=
  match p with
  | "" => Some s
  | String a p' =>
      match s with
      | "" => None
      | String b s' => if Ascii.eqb a b then strip_prefix p' s' else None
      end
  end.

(** [s.replace(old, new)]: every non-overlapping occurrence of [old],
    left to right.  The scan restarts after each occurrence, so the
    recursion is on a counter bounded by the length of [s]. *)
Fixpoint replace_go (fuel : nat) (old new s : string) : string :=
  match fuel with
  | 0 => s
  | S f =>
      match strip_prefix old s with
      | Some r => new +:+ replace_go f old new r
      | None =>
          match s with
          | "" => ""
          | String c s' => String c (replace_go f old new s')
          end
      end
  end.

(** [s.replace('', new)] puts [new] before every character and at the end. *)
Fixpoint replace_empty (new s : string) : string :=
  match s with
  | "" => new
  | String c s' => new +:+ String c (replace_empty new s')
  end.

Definition replace (old new s : string) : string :=
  match old with
  | "" => replace_empty new s
  | _ => replace_go (String.length s) old new s
  end.

(** [s.split(sep)] for a one-character separator. *)
Fixpoint split (sep : ascii) (s : string) : list string :=
  match s with
  | "" => [""]
  | String c s' =>
      let r := split sep s' in
      if Ascii.eqb c sep then "" :: r else String c (hd "" r) :: tl r
  end.

(** [sep.join(l)] *)
Definition join (sep : string) (l : list string) : string :=
  String.concat sep l.

(** What a file opened in text mode gives to [read()]: every [\r\n] and
    every other [\r] of the stored text comes out as [\n]. *)
Definition CR : ascii := "013"%char.

Fixpoint universal_newlines (s : string) : string :=
  match s with
  | "" => ""
  | String c s' =>
      if Ascii.eqb c CR then
        match s' with
        | String d _ =>
            if Ascii.eqb d NL then universal_newlines s'
            else String NL (universal_newlines s')
        | "" => String NL (universal_newlines s')
        end
      else String c (universal_newlines s')
  end.

End Py.

Import Py.

(** ** The fragment of [re] used by the script

    Every pattern in the script is a sequence of capture groups, each a
    sequence of literal texts and greedy starred character classes
    ([\s*], [[^}]*], [[^\]]*]); every replacement template is made of
    group references and literal text. *)

Module Re.

Inductive atom : Type :=
| Lit (s : string)              (* literal text *)
| Star (cls : ascii -> bool).   (* [X*] for a character class [X] *)

(** [\s] *)
Definition space : ascii -> bool := isspace.
(** [[^c]] *)
Definition any_but (c : ascii) : ascii -> bool := fun x => negb (Ascii.eqb x c).

(** A greedy star followed by the rest of the pattern, [k]: take as
    many characters of the class as there are, then give them back one
    by one while [k] fails on what follows.  The result is the text of
    the star and the result of [k]. *)
Fixpoint star {R : Type} (cls : ascii -> bool) (k : string -> option R) (s : string)
  : option (string * R) :=
  let stop :=
    match k s with
    | Some m => Some ("", m)
    | None => None
    end in
  match s with
  | "" => stop
  | String c s' =>
      if cls c then
        match star cls k s' with
        | Some (p, m) => Some (String c p, m)
        | None => stop
        end
      else stop
  end.

(** Backtracking match of a sequence of atoms at the start of [s]:
    the text consumed by each atom and the unconsumed rest. *)
Fixpoint match_here (rs : list atom) (s : string) : option (list string * string) :=
  match rs with
  | [] => Some ([], s)
  | Lit l :: rs' =>
      match strip_prefix l s with
      | Some s' =>
          match match_here rs' s' with
          | Some (ps, r) => Some (l :: ps, r)
          | None => None
          end
      | None => None
      end
  | Star cls :: rs' =>
      match star cls (match_here rs') s with
      | Some (p, (ps, r)) => Some (p :: ps, r)
      | None => None
      end
  end.

(** The text of each capture group, from the text of each atom. *)
Fixpoint regroup (sizes : list nat) (pieces : list string) : list string :=
  match sizes with
  | [] => []
  | n :: ns => String.concat "" (take n pieces) :: regroup ns (drop n pieces)
  end.

Definition pattern : Type := list (list atom).

Definition match_groups (pat : pattern) (s : string) : option (list string * string) :=
  match match_here (concat pat) s with
  | Some (ps, r) => Some (regroup (map length pat) ps, r)
  | None => None
  end.

Inductive titem : Type :=
| Text (s : string)
| Group (n : nat).   (* [\n], counted from 1 *)

Definition template : Type := list titem.

Fixpoint expand (t : template) (groups : list string) : string :=
  match t with
  | [] => ""
  | Text s :: t' => s +:+ expand t' groups
  | Group n :: t' => nth (n - 1) groups "" +:+ expand t' groups
  end.

(** [re.sub(pat, repl, s)]: leftmost matches, replaced left to right;
    after an empty match one character is copied. *)
Fixpoint sub_go (fuel : nat) (pat : pattern) (repl : template) (s : string) : string :=
  let copy rec :=
    match s with
    | "" => ""
    | String c s' => String c (rec s')
    end in
  match fuel with
  | 0 => s
  | S f =>
      match match_groups pat s with
      | Some (gs, r) =>
          if String.length r <? String.length s
          then expand repl gs +:+ sub_go f pat repl r
          else expand repl gs +:+ copy (sub_go f pat repl)
      | None => copy (sub_go f pat repl)
      end
  end.

Definition sub (pat : pattern) (repl : template) (s : string) : string :=
  sub_go (S (String.length s)) pat repl s.

End Re.

(** ** Text constants of the script *)

(** [new_config_settings], line 57 *)
Definition new_config_settings : string :=
  join nl [
    "";
    "config_setting(";
    tab +:+ "name = " +:+ dq +:+ "ios_sim_arm64" +:+ dq +:+ ",";
    tab +:+ "values = {" +:+ dq +:+ "cpu" +:+ dq +:+ ": " +:+ dq +:+ "ios_sim_arm64" +:+ dq +:+ "},";
    ")";
    "";
    "config_setting(";
    tab +:+ "name = " +:+ dq +:+ "ios_sim_x86_64" +:+ dq +:+ ",";
    tab +:+ "values = {" +:+ dq +:+ "cpu" +:+ dq +:+ ": " +:+ dq +:+ "ios_x86_64" +:+ dq +:+ "},";
    ")";
    "";
    "config_setting(";
    tab +:+ "name = " +:+ dq +:+ "ios_x86_64" +:+ dq +:+ ",";
    tab +:+ "values = {" +:+ dq +:+ "cpu" +:+ dq +:+ ": " +:+ dq +:+ "ios_x86_64" +:+ dq +:+ "},";
    ")";
    "";
    "exports_files([";
    "    " +:+ dq +:+ "GenerateStrings/GenerateStrings.py" +:+ dq +:+ ",";
    "])";
    ""
  ].

(** [old_arch_specific_sources] of [patch_webrtc_build], line 114 *)
Definition old_arch_specific_sources : string :=
  join nl [
    "arch_specific_sources = select({";
    "    " +:+ dq +:+ "@build_bazel_rules_apple//apple:ios_arm64" +:+ dq +:+ ": common_arm_specific_sources + arm64_specific_sources,";
    "    " +:+ dq +:+ "//build-system:ios_sim_arm64" +:+ dq +:+ ": common_arm_specific_sources + arm64_specific_sources,";
    "})"
  ].

(** [new_arch_specific_sources] of [patch_webrtc_build], line 119 *)
Definition new_arch_specific_sources : string :=
  join nl [
    "# x86_64 uses generic C implementations instead of NEON";
    "x86_64_specific_sources = [" +:+ dq +:+ "webrtc/" +:+ dq +:+ " + path for path in [";
    "    " +:+ dq +:+ "common_audio/signal_processing/complex_bit_reverse.c" +:+ dq +:+ ",";
    "    " +:+ dq +:+ "common_audio/signal_processing/filter_ar_fast_q12.c" +:+ dq +:+ ",";
    "]]";
    "";
    "arch_specific_sources = select({";
    "    " +:+ dq +:+ "@build_bazel_rules_apple//apple:ios_arm64" +:+ dq +:+ ": common_arm_specific_sources + arm64_specific_sources,";
    "    " +:+ dq +:+ "//build-system:ios_sim_arm64" +:+ dq +:+ ": common_arm_specific_sources + arm64_specific_sources,";
    "    " +:+ dq +:+ "//build-system:ios_sim_x86_64" +:+ dq +:+ ": x86_64_specific_sources,";
    "    " +:+ dq +:+ "//build-system:ios_x86_64" +:+ dq +:+ ": x86_64_specific_sources,";
    "    " +:+ dq +:+ "//conditions:default" +:+ dq +:+ ": x86_64_specific_sources,";
    "})"
  ].

(** [old_arch_specific_cflags] of [patch_webrtc_build], line 136 *)
Definition old_arch_specific_cflags : string :=
  join nl [
    "arch_specific_cflags = select({";
    "    " +:+ dq +:+ "@build_bazel_rules_apple//apple:ios_arm64" +:+ dq +:+ ": common_flags + arm64_specific_flags,";
    "    " +:+ dq +:+ "//build-system:ios_sim_arm64" +:+ dq +:+ ": common_flags + arm64_specific_flags,";
    "})"
  ].

(** [new_arch_specific_cflags] of [patch_webrtc_build], line 141 *)
Definition new_arch_specific_cflags : string :=
  join nl [
    "x86_64_specific_flags = [";
    "    " +:+ dq +:+ "-DWEBRTC_ARCH_X86_64" +:+ dq +:+ ",";
    "    " +:+ dq +:+ "-DWEBRTC_ARCH_X86_FAMILY" +:+ dq +:+ ",";
    "]";
    "";
    "arch_specific_cflags = select({";
    "    " +:+ dq +:+ "@build_bazel_rules_apple//apple:ios_arm64" +:+ dq +:+ ": common_flags + arm64_specific_flags,";
    "    " +:+ dq +:+ "//build-system:ios_sim_arm64" +:+ dq +:+ ": common_flags + arm64_specific_flags,";
    "    " +:+ dq +:+ "//build-system:ios_sim_x86_64" +:+ dq +:+ ": common_flags + x86_64_specific_flags,";
    "    " +:+ dq +:+ "//build-system:ios_x86_64" +:+ dq +:+ ": common_flags + x86_64_specific_flags,";
    "    " +:+ dq +:+ "//conditions:default" +:+ dq +:+ ": common_flags + x86_64_specific_flags,";
    "})"
  ].

(** [old_release_arm64] of [patch_make_py], line 370 *)
Definition old_release_arm64 : string :=
  join nl [
    "        elif configuration == 'release_arm64':";
    "            self.configuration_args = [";
    "                # bazel optimized build configuration";
    "                '-c', 'opt',";
    "";
    "                # Build single-architecture binaries. It is almost 2 times faster is 32-bit support is not required.";
    "                '--ios_multi_cpus=arm64',";
    "";
    "                # Always build universal Watch binaries.";
    "                '--watchos_cpus=arm64_32',";
    "";
    "                # Generate DSYM files when building.";
    "                '--apple_generate_dsym',";
    "";
    "                # Require DSYM files as build output.";
    "                '--output_groups=+dsyms',";
    "            ] + self.common_release_args";
    "        else:";
    "            raise Exception('Unknown configuration {}'.format(configuration))"
  ].

(** [new_configurations] of [patch_make_py], line 390 *)
Definition new_configurations : string :=
  join nl [
    "        elif configuration == 'release_arm64':";
    "            self.configuration_args = [";
    "                # bazel optimized build configuration";
    "                '-c', 'opt',";
    "";
    "                # Build single-architecture binaries. It is almost 2 times faster is 32-bit support is not required.";
    "                '--ios_multi_cpus=arm64',";
    "";
    "                # Always build universal Watch binaries.";
    "                '--watchos_cpus=arm64_32',";
    "";
    "                # Generate DSYM files when building.";
    "                '--apple_generate_dsym',";
    "";
    "                # Require DSYM files as build output.";
    "                '--output_groups=+dsyms',";
    "            ] + self.common_release_args";
    "        elif configuration == 'debug_sim_x86_64':";
    "            self.configuration_args = [";
    "                # bazel debug build configuration";
    "                '-c', 'dbg',";
    "";
    "                # Build for x86_64 simulator (Intel Macs)";
    "                '--ios_multi_cpus=x86_64',";
    "";
    "                # Always build universal Watch binaries.";
    "                '--watchos_cpus=arm64_32'";
    "            ] + self.common_debug_args";
    "        elif configuration == 'release_sim_x86_64':";
    "            self.configuration_args = [";
    "                # bazel optimized build configuration";
    "                '-c', 'opt',";
    "";
    "                # Build for x86_64 simulator (Intel Macs)";
    "                '--ios_multi_cpus=x86_64',";
    "";
    "                # Always build universal Watch binaries.";
    "                '--watchos_cpus=arm64_32'";
    "            ] + self.common_release_args";
    "        else:";
    "            raise Exception('Unknown configuration {}'.format(configuration))"
  ].

(** [old_choices] of [patch_make_py], line 435 *)
Definition old_choices : string :=
  join nl [
    "        choices=[";
    "            'debug_arm64',";
    "            'debug_sim_arm64',";
    "            'release_sim_arm64',";
    "            'release_arm64',";
    "        ],";
    "        required=True,";
    "        help='Build configuration'"
  ].

(** [new_choices] of [patch_make_py], line 444 *)
Definition new_choices : string :=
  join nl [
    "        choices=[";
    "            'debug_arm64',";
    "            'debug_sim_arm64',";
    "            'release_sim_arm64',";
    "            'release_arm64',";
    "            'debug_sim_x86_64',";
    "            'release_sim_x86_64',";
    "        ],";
    "        required=True,";
    "        help='Build configuration'"
  ].

(** The text between [\1] and [\2] in a replacement template *)
Definition branches_common_flags : string :=
  join nl [
    "";
    "    " +:+ dq +:+ "//build-system:ios_sim_x86_64" +:+ dq +:+ ": common_flags,";
    "    " +:+ dq +:+ "//build-system:ios_x86_64" +:+ dq +:+ ": common_flags,";
    "    " +:+ dq +:+ "//conditions:default" +:+ dq +:+ ": common_flags,";
    ""
  ].

(** The text between [\1] and [\2] in a replacement template *)
Definition branches_empty : string :=
  join nl [
    "";
    "    " +:+ dq +:+ "//build-system:ios_sim_x86_64" +:+ dq +:+ ": [],";
    "    " +:+ dq +:+ "//build-system:ios_x86_64" +:+ dq +:+ ": [],";
    "    " +:+ dq +:+ "//conditions:default" +:+ dq +:+ ": [],";
    ""
  ].

(** ** The genrule block duplicator ([patch_genrule_build_files], lines 511-558) *)

(** ['elif [ "$(TARGET_CPU)" == "ios_sim_arm64" ]; then'] *)
Definition sim_arm64_marker : string :=
  "elif [ " +:+ dq +:+ "$(TARGET_CPU)" +:+ dq +:+ " == " +:+ dq +:+ "ios_sim_arm64" +:+ dq +:+ " ]; then".

(** ['elif [ "$(TARGET_CPU)" == "ios_x86_64" ]; then'] *)
Definition x86_64_marker : string :=
  "elif [ " +:+ dq +:+ "$(TARGET_CPU)" +:+ dq +:+ " == " +:+ dq +:+ "ios_x86_64" +:+ dq +:+ " ]; then".

(** Line 523: the test that starts a block. *)
Definition is_marker (line : string) : bool := contains sim_arm64_marker line.

(** Line 531: the test that ends a block. *)
Definition is_terminator (line : string) : bool :=
  startswith (strip line) "elif " || startswith (strip line) "else"
  || String.eqb (strip line) "fi".

(** Line 535: [line[:len(line) - len(line.lstrip())]] *)
Definition leading_ws (line : string) : string :=
  slice_to (String.length line - String.length (lstrip line)) line.

(** Lines 534-535: the update of [indent] at one body line. *)
Definition next_indent (indent line : string) : string :=
  if negb (truthy indent) && truthy (strip line) then leading_ws line else indent.

(** Lines 528-537, the inner loop: from the lines after a marker, the
    collected [block_lines], the final [indent], and the lines left,
    starting at the terminator if there is one. *)
Fixpoint collect_block (lines : list string) (indent : string)
  : list string * string * list string :=
  match lines with
  | [] => ([], indent, [])
  | line :: rest =>
      if is_terminator line then ([], indent, lines)
      else
        let '(block_lines, indent', rest') := collect_block rest (next_indent indent line) in
        (line :: block_lines, indent', rest')
  end.

(** Lines 545-547: the rewrite of one body line. *)
Definition modified_line (bl : string) : string :=
  replace "arm64" "x86_64" (replace "aarch64" "x86_64" bl).

(** Lines 541-549 *)
Definition x86_block (indent : string) (block_lines : list string) : list string :=
  (indent +:+ x86_64_marker) :: map modified_line block_lines.

(** Lines 519-555, the outer loop over the lines from index [i] on: what
    it appends to [new_lines], and the final [modified].  An iteration
    consumes at least one line, so a counter of the number of lines
    bounds the recursion. *)
Fixpoint scan (fuel : nat) (lines : list string) (modified : bool) : list string * bool :=
  match fuel with
  | 0 => ([], modified)
  | S f =>
      match lines with
      | [] => ([], modified)
      | line :: rest =>
          if is_marker line then
            let '(block_lines, indent, rest') := collect_block rest "" in
            let '(out, m) := scan f rest' true in
            (line :: block_lines ++ x86_block indent block_lines ++ out, m)
          else
            let '(out, m) := scan f rest modified in
            (line :: out, m)
      end
  end.

Definition duplicate_blocks (lines : list string) : list string * bool :=
  scan (length lines) lines false.

(** The bodies of the blocks that the scan duplicates, in order. *)
Fixpoint blocks_go (fuel : nat) (lines : list string) : list (list string) :=
  match fuel with
  | 0 => []
  | S f =>
      match lines with
      | [] => []
      | line :: rest =>
          if is_marker line then
            let '(block_lines, _, rest') := collect_block rest "" in
            block_lines :: blocks_go f rest'
          else blocks_go f rest
      end
  end.

Definition blocks (lines : list string) : list (list string) :=
  blocks_go (length lines) lines.

(** Lines 511-558: the new content of a genrule file and [modified]. *)
Definition patch_genrule_content (content : string) : string * bool :=
  if contains sim_arm64_marker content then
    let '(new_lines, modified) := duplicate_blocks (split NL content) in
    (if modified then join nl new_lines else content, modified)
  else (content, false).

(** ** The filesystem and the output *)

Inductive event : Type :=
| Print (msg : string)            (* [print(msg)] *)
| ReadFile (path : string)        (* [open(path, 'r')] and [read()] *)
| Copy2 (src dst : string)        (* [shutil.copy2(src, dst)] *)
| WriteFile (path content : string). (* [open(path, 'w')] and [write(content)] *)

Record world : Type := World {
  files : gmap string string;   (* the stored content of every existing file *)
  log : list event              (* what has happened so far, oldest first *)
}.

(** A computation either raises (an uncaught exception ends the run) or
    returns a value and the next world. *)
Definition M (A : Type) : Type := world -> option (A * world).

#[global] Instance M_ret : MRet M := fun A a w => Some (a, w).
#[global] Instance M_bind : MBind M := fun A B f m w =>
  match m w with
  | Some (a, w') => f a w'
  | None => None
  end.

Definition emit (e : event) (w : world) : world :=
  World (files w) (log w ++ [e]).

(** [print(msg)] *)
Definition print (msg : string) : M unit :=
  fun w => Some (tt, emit (Print msg) w).

(** [os.path.exists(path)] *)
Definition path_exists (path : string) : M bool :=
  fun w => Some (bool_decide (is_Some (files w !! path)), w).

(** [with open(path, 'r') as f: content = f.read()]: text mode, so the
    content comes with its newlines translated. *)
Definition read_file (path : string) : M string :=
  fun w =>
    match files w !! path with
    | Some content => Some (universal_newlines content, emit (ReadFile path) w)
    | None => None
    end.

(** [with open(path, 'w') as f: f.write(content)]: on the platform the
    script is for, text mode writes [\n] as it is. *)
Definition write_file (path content : string) : M unit :=
  fun w => Some (tt, emit (WriteFile path content) (World (<[path := content]> (files w)) (log w))).

(** [shutil.copy2(src, dst)] *)
Definition copy2 (src dst : string) : M unit :=
  fun w =>
    match files w !! src with
    | Some content => Some (tt, emit (Copy2 src dst) (World (<[dst := content]> (files w)) (log w)))
    | None => None
    end.

(** Python's [s * n] *)
Fixpoint str_mul (s : string) (n : nat) : string :=
  match n with
  | 0 => ""
  | S n' => s +:+ str_mul s n'
  end.

(** ** The patch functions *)

Section Script.

(** [datetime.now().strftime('%Y%m%d_%H%M%S')] at the moment the file
    [filepath] is backed up. *)
Variable timestamp : string -> string.

Definition backup_file (filepath : string) : M string :=
  let backup_path := filepath +:+ ".backup." +:+ timestamp filepath in
  copy2 filepath backup_path;;
  print ("  Backup created: " +:+ backup_path);;
  mret backup_path.

Definition patch_build_system_build (filepath : string) (dry_run : bool) : M bool :=
  print (nl +:+ "[1/8] Patching " +:+ filepath);;
  ex ← path_exists filepath;
  if negb ex then
    print ("  ERROR: File not found: " +:+ filepath);;
    mret false
  else
  content ← read_file filepath;
  if contains "ios_sim_x86_64" content then
    print "  Already patched, skipping.";;
    mret true
  else
  if dry_run then
    print "  [DRY RUN] Would replace entire file with x86_64 config settings";;
    mret true
  else
  backup_file filepath;;
  write_file filepath new_config_settings;;
  print "  Successfully added ios_sim_x86_64 and ios_x86_64 config settings";;
  mret true.

(** The patterns and templates of the [re.sub] calls. *)

(** [\s*\}\)], the second group of every pattern *)
Definition close_select : list Re.atom := [Re.Star Re.space; Re.Lit "})"].

(** ["//build-system:ios_sim_arm64":] *)
Definition sim_arm64_key : string :=
  dq +:+ "//build-system:ios_sim_arm64" +:+ dq +:+ ":".

(** Line 187 *)
Definition libyuv_pattern : Re.pattern :=
  [ [Re.Lit "arch_specific_cflags"; Re.Star Re.space; Re.Lit "="; Re.Star Re.space;
     Re.Lit "select({"; Re.Star (Re.any_but "}");
     Re.Lit sim_arm64_key; Re.Star Re.space; Re.Lit "common_flags"; Re.Star Re.space;
     Re.Lit "+"; Re.Star Re.space; Re.Lit "arm64_specific_flags,"];
    close_select ].

(** Lines 228, 239, 250 *)
Definition openh264_pattern (name : string) : Re.pattern :=
  [ [Re.Lit sim_arm64_key; Re.Star Re.space; Re.Lit (name +:+ ",")]; close_select ].

(** Line 290 *)
Definition libsrtp_pattern : Re.pattern :=
  [ [Re.Lit sim_arm64_key; Re.Star Re.space; Re.Lit "common_flags"; Re.Star Re.space;
     Re.Lit "+"; Re.Star Re.space; Re.Lit "arm64_specific_flags,"];
    close_select ].

(** Line 331 *)
Definition crc32c_pattern : Re.pattern :=
  [ [Re.Lit sim_arm64_key; Re.Star Re.space; Re.Lit "["; Re.Star (Re.any_but "]");
     Re.Lit "],"];
    close_select ].

(** Lines 189-193, 291-295: [\1], the three [common_flags] branches, [\2] *)
Definition common_flags_template : Re.template :=
  [Re.Group 1; Re.Text branches_common_flags; Re.Group 2].

(** Lines 229-233, 240-244, 251-255, 332-336: [\1], the three empty branches, [\2] *)
Definition empty_template : Re.template :=
  [Re.Group 1; Re.Text branches_empty; Re.Group 2].

Definition patch_webrtc_build (filepath : string) (dry_run : bool) : M bool :=
  print (nl +:+ "[2/8] Patching " +:+ filepath);;
  ex ← path_exists filepath;
  if negb ex then
    print ("  ERROR: File not found: " +:+ filepath);;
    mret false
  else
  content ← read_file filepath;
  if contains "ios_sim_x86_64" content then
    print "  Already patched, skipping.";;
    mret true
  else
  if dry_run then
    print "  [DRY RUN] Would add x86_64 support to arch_specific_sources and arch_specific_cflags";;
    mret true
  else
  backup_file filepath;;
  let content := replace old_arch_specific_sources new_arch_specific_sources content in
  let content := replace old_arch_specific_cflags new_arch_specific_cflags content in
  write_file filepath content;;
  print "  Successfully added x86_64 support";;
  mret true.

Definition patch_libyuv_build (filepath : string) (dry_run : bool) : M bool :=
  print (nl +:+ "[3/8] Patching " +:+ filepath);;
  ex ← path_exists filepath;
  if negb ex then
    print ("  ERROR: File not found: " +:+ filepath);;
    mret false
  else
  content ← read_file filepath;
  if contains "ios_sim_x86_64" content then
    print "  Already patched, skipping.";;
    mret true
  else
  if dry_run then
    print "  [DRY RUN] Would add x86_64 support to select() statements";;
    mret true
  else
  backup_file filepath;;
  let content := Re.sub libyuv_pattern common_flags_template content in
  write_file filepath content;;
  print "  Successfully added x86_64 support";;
  mret true.

Definition patch_openh264_build (filepath : string) (dry_run : bool) : M bool :=
  print (nl +:+ "[4/8] Patching " +:+ filepath);;
  ex ← path_exists filepath;
  if negb ex then
    print ("  ERROR: File not found: " +:+ filepath);;
    mret false
  else
  content ← read_file filepath;
  if contains "ios_sim_x86_64" content then
    print "  Already patched, skipping.";;
    mret true
  else
  if dry_run then
    print "  [DRY RUN] Would add x86_64 support to select() statements";;
    mret true
  else
  backup_file filepath;;
  let content := Re.sub (openh264_pattern "arm64_specific_sources") empty_template content in
  let content := Re.sub (openh264_pattern "arm64_specific_copts") empty_template content in
  let content := Re.sub (openh264_pattern "arm64_specific_textual_hdrs") empty_template content in
  write_file filepath content;;
  print "  Successfully added x86_64 support";;
  mret true.

Definition patch_libsrtp_build (filepath : string) (dry_run : bool) : M bool :=
  print (nl +:+ "[5/8] Patching " +:+ filepath);;
  ex ← path_exists filepath;
  if negb ex then
    print ("  ERROR: File not found: " +:+ filepath);;
    mret false
  else
  content ← read_file filepath;
  if contains "ios_sim_x86_64" content then
    print "  Already patched, skipping.";;
    mret true
  else
  if dry_run then
    print "  [DRY RUN] Would add x86_64 support to select() statements";;
    mret true
  else
  backup_file filepath;;
  let content := Re.sub libsrtp_pattern common_flags_template content in
  write_file filepath content;;
  print "  Successfully added x86_64 support";;
  mret true.

Definition patch_crc32c_build (filepath : string) (dry_run : bool) : M bool :=
  print (nl +:+ "[6/8] Patching " +:+ filepath);;
  ex ← path_exists filepath;
  if negb ex then
    print ("  ERROR: File not found: " +:+ filepath);;
    mret false
  else
  content ← read_file filepath;
  if contains "ios_sim_x86_64" content then
    print "  Already patched, skipping.";;
    mret true
  else
  if dry_run then
    print "  [DRY RUN] Would add x86_64 support to select() statements";;
    mret true
  else
  backup_file filepath;;
  let content := Re.sub crc32c_pattern empty_template content in
  write_file filepath content;;
  print "  Successfully added x86_64 support";;
  mret true.

Definition patch_make_py (filepath : string) (dry_run : bool) : M bool :=
  print (nl +:+ "[7/8] Patching " +:+ filepath);;
  ex ← path_exists filepath;
  if negb ex then
    print ("  ERROR: File not found: " +:+ filepath);;
    mret false
  else
  content ← read_file filepath;
  if contains "debug_sim_x86_64" content then
    print "  Already patched, skipping.";;
    mret true
  else
  if dry_run then
    print "  [DRY RUN] Would add debug_sim_x86_64 and release_sim_x86_64 configurations";;
    mret true
  else
  backup_file filepath;;
  let content := replace old_release_arm64 new_configurations content in
  let content := replace old_choices new_choices content in
  write_file filepath content;;
  print "  Successfully added debug_sim_x86_64 and release_sim_x86_64 configurations";;
  mret true.

(** Lines 468-477 *)
Definition genrule_files : list string :=
  [ "submodules/ffmpeg/BUILD";
    "third-party/opus/BUILD";
    "third-party/libjxl/BUILD";
    "third-party/webp/BUILD";
    "third-party/td/BUILD";
    "third-party/libvpx/BUILD";
    "third-party/dav1d/BUILD";
    "third-party/mozjpeg/BUILD" ].

(** Lines 482-567, the body of the loop over [genrule_files]: one file,
    from the current [patched_count] to the next. *)
Definition patch_genrule_file (filepath : string) (dry_run : bool) (patched_count : nat) : M nat :=
  ex ← path_exists filepath;
  if negb ex then
    print ("  WARNING: File not found: " +:+ filepath);;
    mret patched_count
  else
  content ← read_file filepath;
  if contains "ios_x86_64" content then
    print ("  " +:+ filepath +:+ ": Already patched, skipping.");;
    mret patched_count
  else
  if dry_run then
    print ("  [DRY RUN] Would patch " +:+ filepath);;
    mret (patched_count + 1)
  else
  backup_file filepath;;
  let '(content, modified) := patch_genrule_content content in
  write_file filepath content;;
  if modified then
    print ("  " +:+ filepath +:+ ": Successfully patched");;
    mret (patched_count + 1)
  else
    print ("  " +:+ filepath +:+ ": No changes needed or pattern not found");;
    mret patched_count.

(** Line 481: [for filepath in genrule_files] *)
Fixpoint patch_genrule_loop (paths : list string) (dry_run : bool) (patched_count : nat) : M nat :=
  match paths with
  | [] => mret patched_count
  | filepath :: paths' =>
      patched_count ← patch_genrule_file filepath dry_run patched_count;
      patch_genrule_loop paths' dry_run patched_count
  end.

Definition patch_genrule_build_files (dry_run : bool) : M bool :=
  print (nl +:+ "[8/8] Patching genrule BUILD files (ffmpeg, opus, libvpx, etc.)");;
  patched_count ← patch_genrule_loop genrule_files dry_run 0;
  mret (0 <? patched_count).

(** Lines 604-616 of [main]: the steps, and the final [success]. *)
Definition patch_all (dry_run skip_genrules : bool) : M bool :=
  let success := true in
  r ← patch_build_system_build "build-system/BUILD" dry_run;
  let success := success && r in
  r ← patch_webrtc_build "third-party/webrtc/BUILD" dry_run;
  let success := success && r in
  r ← patch_libyuv_build "third-party/libyuv/BUILD" dry_run;
  let success := success && r in
  r ← patch_openh264_build "third-party/openh264/BUILD" dry_run;
  let success := success && r in
  r ← patch_libsrtp_build "third-party/webrtc/libsrtp/BUILD" dry_run;
  let success := success && r in
  r ← patch_crc32c_build "third-party/webrtc/crc32c/BUILD" dry_run;
  let success := success && r in
  r ← patch_make_py "build-system/Make/Make.py" dry_run;
  let success := success && r in
  (if negb skip_genrules then patch_genrule_build_files dry_run;; mret tt else mret tt);;
  mret success.

(** Lines 618-649 of [main]: the closing report. *)
Definition report (dry_run success : bool) : M unit :=
  print (nl +:+ str_mul "=" 60);;
  (if dry_run then
     print "DRY RUN COMPLETE - No files were modified";;
     print (nl +:+ "Run without --dry-run to apply changes.")
   else if success then
     print "PATCHING COMPLETE!";;
     print (nl +:+ "Next steps:");;
     print "1. Run the generateProject command with x86_64 support:";;
     print "";;
     print ("   python3 build-system/Make/Make.py " +:+ bs);;
     print ("       --cacheDir=" +:+ dq +:+ "$HOME/telegram-bazel-cache" +:+ dq +:+ " " +:+ bs);;
     print ("       generateProject " +:+ bs);;
     print ("       --configurationPath=build-system/template_minimal_development_configuration.json " +:+ bs);;
     print "       --xcodeManagedCodesigning";;
     print "";;
     print "2. Or build directly for x86_64 simulator:";;
     print "";;
     print ("   python3 build-system/Make/Make.py " +:+ bs);;
     print ("       --cacheDir=" +:+ dq +:+ "$HOME/telegram-bazel-cache" +:+ dq +:+ " " +:+ bs);;
     print ("       build " +:+ bs);;
     print ("       --configurationPath=build-system/template_minimal_development_configuration.json " +:+ bs);;
     print ("       --xcodeManagedCodesigning " +:+ bs);;
     print ("       --buildNumber=10000 " +:+ bs);;
     print "       --configuration=debug_sim_x86_64";;
     print "";;
     print "Note: Backup files were created with .backup.* extension"
   else
     print "PATCHING COMPLETED WITH ERRORS";;
     print "Please check the output above for details.");;
  print (str_mul "=" 60).

(** [main], after the command line is parsed into [--dry-run] and
    [--skip-genrules]; the result is the exit status of the process. *)
Definition main (dry_run skip_genrules : bool) : M nat :=
  print (str_mul "=" 60);;
  print "Telegram-iOS Intel x86_64 Support Patch";;
  print (str_mul "=" 60);;
  (if dry_run then
     print (nl +:+ "*** DRY RUN MODE - No files will be modified ***" +:+ nl)
   else mret tt);;
  ex ← path_exists "build-system/BUILD";
  if negb ex then
    print "ERROR: This script must be run from the Telegram-iOS root directory.";;
    print "       Could not find build-system/BUILD";;
    mret 1
  else
  success ← patch_all dry_run skip_genrules;
  report dry_run success;;
  mret 0.

End Script.

(** ** Vocabulary of the statements *)

#[local] Arguments String.append : simpl nomatch.
#[local] Arguments is_marker : simpl never.
#[local] Arguments is_terminator : simpl never.
#[local] Arguments next_indent : simpl never.
#[local] Arguments modified_line : simpl never.
#[local] Arguments path_exists : simpl never.
#[local] Arguments read_file : simpl never.

Abbreviation chars := String.list_ascii_of_string.

(** [a] is [b] with some characters left out: everything of [a] is in
    [b], in order. *)
Definition subtext (a b : string) : Prop := chars a `sublist_of` chars b.

(** A decision procedure for [subtext], for the text constants. *)
Fixpoint subtextb (a b : string) : bool :=
  match b with
  | "" => match a with "" => true | _ => false end
  | String y b' =>
      match a with
      | "" => true
      | String x a' => if Ascii.eqb x y then subtextb a' b' else subtextb a b'
      end
  end.

(** The [indent] that the inner loop ends with, for a given body. *)
Definition block_indent (body : list string) : string :=
  fold_left next_indent body "".

(** The leading whitespace of the first body line that is not blank and
    is indented; empty when there is none. *)
Fixpoint first_indent (body : list string) : string :=
  match body with
  | [] => ""
  | line :: rest =>
      if truthy (strip line) && truthy (leading_ws line) then leading_ws line
      else first_indent rest
  end.

(** A marker line at two spaces with a trailing comment, and a block
    around it whose body is indented by six. *)
Definition commented_marker : string := "  " +:+ sim_arm64_marker +:+ " # sim".
Definition commented_block : list string :=
  ["if a; then"; commented_marker; "      echo arm64"; "  fi"].

(** Where a body stops: at the end of the input or before a terminator. *)
Definition block_end (rest : list string) : Prop :=
  match rest with
  | [] => True
  | t :: _ => is_terminator t = true
  end.

(** The events that change the filesystem. *)
Definition mutates (e : event) : bool :=
  match e with
  | Copy2 _ _ | WriteFile _ _ => true
  | Print _ | ReadFile _ => false
  end.

(** The shape shared by the seven numbered patch functions: they differ
    in the step label, the already-patched text, the dry-run message,
    the rewrite of the content and the closing message. *)
Definition patch_with (timestamp : string -> string)
    (label patched dry_msg : string) (rewrite : string -> string) (done_msg : string)
    (filepath : string) (dry_run : bool) : M bool :=
  print (nl +:+ label +:+ filepath);;
  ex ← path_exists filepath;
  if negb ex then
    print ("  ERROR: File not found: " +:+ filepath);;
    mret false
  else
  content ← read_file filepath;
  if contains patched content then
    print "  Already patched, skipping.";;
    mret true
  else
  if dry_run then
    print dry_msg;;
    mret true
  else
  backup_file timestamp filepath;;
  write_file filepath (rewrite content);;
  print done_msg;;
  mret true.

(** What each numbered step writes for a content that it patches. *)
Definition webrtc_content (content : string) : string :=
  replace old_arch_specific_cflags new_arch_specific_cflags
    (replace old_arch_specific_sources new_arch_specific_sources content).
Definition libyuv_content (content : string) : string :=
  Re.sub libyuv_pattern common_flags_template content.
Definition openh264_content (content : string) : string :=
  Re.sub (openh264_pattern "arm64_specific_textual_hdrs") empty_template
    (Re.sub (openh264_pattern "arm64_specific_copts") empty_template
       (Re.sub (openh264_pattern "arm64_specific_sources") empty_template content)).
Definition libsrtp_content (content : string) : string :=
  Re.sub libsrtp_pattern common_flags_template content.
Definition crc32c_content (content : string) : string :=
  Re.sub crc32c_pattern empty_template content.
Definition make_py_content (content : string) : string :=
  replace old_choices new_choices (replace old_release_arm64 new_configurations content).

(** The seven numbered patch functions in the order [main] calls them,
    each with its already-patched text and its rewrite. *)
Record step : Type := Step {
  step_patched : string;
  step_rewrite : string -> string;
  step_run : string -> bool -> M bool
}.

Definition numbered_steps (timestamp : string -> string) : list step :=
  [ Step "ios_sim_x86_64" (fun _ => new_config_settings) (patch_build_system_build timestamp);
    Step "ios_sim_x86_64" webrtc_content (patch_webrtc_build timestamp);
    Step "ios_sim_x86_64" libyuv_content (patch_libyuv_build timestamp);
    Step "ios_sim_x86_64" openh264_content (patch_openh264_build timestamp);
    Step "ios_sim_x86_64" libsrtp_content (patch_libsrtp_build timestamp);
    Step "ios_sim_x86_64" crc32c_content (patch_crc32c_build timestamp);
    Step "debug_sim_x86_64" make_py_content (patch_make_py timestamp) ].

(** The files of the numbered steps, as [main] passes them. *)
Definition step_targets : list string :=
  [ "build-system/BUILD";
    "third-party/webrtc/BUILD";
    "third-party/libyuv/BUILD";
    "third-party/openh264/BUILD";
    "third-party/webrtc/libsrtp/BUILD";
    "third-party/webrtc/crc32c/BUILD";
    "build-system/Make/Make.py" ].

(** The first line each numbered step prints in [main]. *)
Definition step_headers : list string :=
  [ nl +:+ "[1/8] Patching build-system/BUILD";
    nl +:+ "[2/8] Patching third-party/webrtc/BUILD";
    nl +:+ "[3/8] Patching third-party/libyuv/BUILD";
    nl +:+ "[4/8] Patching third-party/openh264/BUILD";
    nl +:+ "[5/8] Patching third-party/webrtc/libsrtp/BUILD";
    nl +:+ "[6/8] Patching third-party/webrtc/crc32c/BUILD";
    nl +:+ "[7/8] Patching build-system/Make/Make.py" ].

(** The path of the backup of [filepath]. *)
Definition backup_path (timestamp : string -> string) (filepath : string) : string :=
  filepath +:+ ".backup." +:+ timestamp filepath.

(** [w'] is [w] after some events that change no file. *)
Definition quiet (w w' : world) : Prop :=
  files w' = files w
  /\ exists evs, log w' = log w ++ evs /\ Forall (fun e => mutates e = false) evs.

(** [w'] is [w] after more events. *)
Definition extends (w w' : world) : Prop :=
  exists evs, log w' = log w ++ evs.

(** The paths that are no backup exist in [w'] exactly when they exist
    in [w]. *)
Definition same_sources (w w' : world) : Prop :=
  forall q, contains ".backup." q = false ->
    (is_Some (files w' !! q) <-> is_Some (files w !! q)).

(** Whether the genrule pass attempts the file [p] of [w]: it exists and
    does not contain [ios_x86_64]. *)
Definition would_patch (w : world) (p : string) : bool :=
  match files w !! p with
  | Some c => negb (contains "ios_x86_64" c)
  | None => false
  end.

(** Sample inputs of the closed examples. *)
Definition sample_stamp : string -> string := fun _ => "20250101_120000".
Definition one_file (path content : string) : world := World {[ path := content ]} [].
Definition sample_select : string :=
  join nl [ "copts = select({";
            "    " +:+ sim_arm64_key +:+ " common_flags + arm64_specific_flags,";
            "})" ].
Definition sample_genrule : string :=
  join nl [ "if [ x ]; then"; "  a";
            sim_arm64_marker; "  cc -arch arm64"; "fi" ].

(** The texts each numbered step after the first looks for, in the
    order of [numbered_steps]. *)
Definition step_anchors : list (list string) :=
  [ [old_arch_specific_sources; old_arch_specific_cflags];
    ["arch_specific_cflags"];
    [sim_arm64_key];
    [sim_arm64_key];
    [sim_arm64_key];
    [old_release_arm64; old_choices] ].

(** Every path [main] may patch. *)
Definition all_targets : list string := step_targets ++ genrule_files.

(** From [w] to [w'] no file is removed, and only the files [ps] and
    backup files change or appear. *)
Definition touches (ps : list string) (w w' : world) : Prop :=
  (forall q, q ∉ ps -> contains ".backup." q = false -> files w' !! q = files w !! q)
  /\ (forall q, is_Some (files w !! q) -> is_Some (files w' !! q)).

(** Whether the genrule pass, outside dry-run, duplicates a block in the
    file [p] of [w]: it exists, does not contain [ios_x86_64] and
    contains the marker. *)
Definition will_modify (w : world) (p : string) : bool :=
  match files w !! p with
  | Some c => negb (contains "ios_x86_64" c) && contains sim_arm64_marker c
  | None => false
  end.

(** More sample inputs: a later timestamp, and contents stored with
    [\r\n] line ends. *)
Definition later_stamp : string -> string := fun _ => "20250101_120500".
Definition crlf : string := String CR nl.
Definition sample_plain_crlf : string := "cc -arch arm64" +:+ crlf.
Definition sample_select_crlf : string :=
  join crlf [ "copts = select({";
              "    " +:+ sim_arm64_key +:+ " common_flags + arm64_specific_flags,";
              "})" ].
Definition indented_block : list string :=
  ["if a; then"; "  " +:+ sim_arm64_marker; "  echo arm64"; "  fi"].

(** * Verification *)

(** ** Strings as character lists *)

Lemma chars_app (a b : string) : chars (a +:+ b) = chars a ++ chars b.
Proof. induction a as [|c a IH]; simpl; [done | by rewrite IH]. Qed.

Lemma app_assoc_s (a b c : string) : (a +:+ b) +:+ c = a +:+ (b +:+ c).
Proof. induction a as [|x a IH]; simpl; [done | by rewrite IH]. Qed.

Lemma app_empty_r (a : string) : a +:+ "" = a.
Proof. induction a as [|x a IH]; simpl; [done | by rewrite IH]. Qed.

Lemma length_app_s (a b : string) :
  String.length (a +:+ b) = String.length a + String.length b.
Proof. induction a as [|x a IH]; simpl; [done | by rewrite IH]. Qed.

Lemma subtext_refl (a : string) : subtext a a.
Proof. unfold subtext. done. Qed.

Lemma subtext_trans (a b c : string) : subtext a b -> subtext b c -> subtext a c.
Proof. unfold subtext. intros H1 H2. by etrans. Qed.

Lemma subtext_app (a a' b b' : string) :
  subtext a a' -> subtext b b' -> subtext (a +:+ b) (a' +:+ b').
Proof. unfold subtext. rewrite !chars_app. apply sublist_app. Qed.

Lemma subtext_cons (c : ascii) (a b : string) :
  subtext a b -> subtext (String c a) (String c b).
Proof. unfold subtext. simpl. by constructor. Qed.

Lemma subtext_insert_l (k a b : string) : subtext a b -> subtext a (k +:+ b).
Proof. unfold subtext. rewrite chars_app. apply sublist_inserts_l. Qed.

Lemma subtextb_sound (a b : string) : subtextb a b = true -> subtext a b.
Proof.
  revert a. induction b as [|y b IH]; intros [|x a]; simpl; try done;
    try (intros _; apply sublist_nil_l).
  destruct (Ascii.eqb_spec x y) as [->|_]; intros H.
  - apply subtext_cons. by apply IH.
  - unfold subtext. simpl. apply sublist_cons. by apply (IH (String x a)).
Qed.

(** ** [strip_prefix], [contains], [replace] *)

Lemma strip_prefix_Some (p s r : string) :
  strip_prefix p s = Some r <-> s = p +:+ r.
Proof.
  revert s. induction p as [|a p IH]; intros s; simpl.
  - split; congruence.
  - destruct s as [|b s]; [split; discriminate|].
    destruct (Ascii.eqb_spec a b) as [->|Hne].
    + rewrite IH. split; congruence.
    + split; [discriminate | congruence].
Qed.

Lemma strip_prefix_app (p r : string) : strip_prefix p (p +:+ r) = Some r.
Proof. by apply strip_prefix_Some. Qed.

Lemma strip_prefix_length (p s r : string) :
  strip_prefix p s = Some r -> String.length s = String.length p + String.length r.
Proof. intros ->%strip_prefix_Some. apply length_app_s. Qed.

Lemma replace_go_subtext (old new : string) :
  subtext old new ->
  forall fuel s, subtext s (replace_go fuel old new s).
Proof.
  intros Hon. induction fuel as [|f IH]; intros s; simpl.
  - apply subtext_refl.
  - destruct (strip_prefix old s) as [r|] eqn:E.
    + apply strip_prefix_Some in E as ->. by apply subtext_app.
    + destruct s as [|c s]; [apply subtext_refl | by apply subtext_cons].
Qed.

Lemma replace_empty_subtext (new s : string) : subtext s (replace_empty new s).
Proof.
  induction s as [|c s IH]; simpl.
  - unfold subtext. apply sublist_nil_l.
  - apply subtext_insert_l. by apply subtext_cons.
Qed.

(** [str.replace] only inserts when the old text is inside the new one. *)
Lemma replace_subtext (old new s : string) :
  subtext old new -> subtext s (replace old new s).
Proof.
  intros H. unfold replace. destruct old.
  - apply replace_empty_subtext.
  - by apply replace_go_subtext.
Qed.

(** Enough fuel: more than the length of the text changes nothing. *)
Lemma replace_go_fuel_eq (old new : string) :
  old <> "" ->
  forall f1 f2 s, String.length s <= f1 -> String.length s <= f2 ->
    replace_go f1 old new s = replace_go f2 old new s.
Proof.
  intros Hold.
  assert (0 < String.length old) as Hpos by (destruct old; [done | simpl; lia]).
  induction f1 as [|f1 IH]; intros f2 s H1 H2.
  - destruct s; [|simpl in H1; lia]. destruct f2; simpl; [done|].
    destruct old; done.
  - destruct f2 as [|f2].
    + destruct s; [|simpl in H2; lia]. simpl. destruct old; done.
    + simpl. destruct (strip_prefix old s) as [r|] eqn:E.
      * pose proof (strip_prefix_length _ _ _ E) as Hl.
        rewrite (IH f2 r) by lia. done.
      * destruct s as [|c s]; [done|]. simpl in H1, H2.
        rewrite (IH f2 s) by lia. done.
Qed.

Lemma replace_go_fuel (old new : string) (fuel : nat) (s : string) :
  old <> "" -> String.length s <= fuel ->
  replace_go fuel old new s = replace old new s.
Proof.
  intros Hold Hlen. unfold replace. destruct old as [|a old]; [done|].
  by apply replace_go_fuel_eq.
Qed.

(** The defining equations of [str.replace] for a non-empty [old]. *)
Lemma replace_match (old new r : string) :
  old <> "" -> replace old new (old +:+ r) = new +:+ replace old new r.
Proof.
  intros Hold. unfold replace. destruct old as [|a old]; [done|].
  set (o := String a old) in *.
  assert (String.length (o +:+ r) = S (String.length old + String.length r)) as Hl
    by (rewrite length_app_s; done).
  rewrite Hl. cbn [replace_go]. rewrite strip_prefix_app.
  f_equal. apply replace_go_fuel_eq; [done | lia | lia].
Qed.

Lemma replace_skip (old new : string) (c : ascii) (s : string) :
  old <> "" -> strip_prefix old (String c s) = None ->
  replace old new (String c s) = String c (replace old new s).
Proof.
  intros Hold E. unfold replace. destruct old as [|a old]; [done|].
  simpl String.length. cbn [replace_go]. rewrite E. done.
Qed.

(** ** The block duplicator *)

Lemma collect_block_spec (lines : list string) (indent : string) :
  exists body rest,
    collect_block lines indent = (body, fold_left next_indent body indent, rest)
    /\ lines = body ++ rest
    /\ Forall (fun l => is_terminator l = false) body
    /\ block_end rest.
Proof.
  revert indent. induction lines as [|line lines IH]; intros indent; simpl.
  - exists [], []. done.
  - destruct (is_terminator line) eqn:E.
    + exists [], (line :: lines). done.
    + destruct (IH (next_indent indent line)) as (body & rest & -> & Hl & Hb & Hr).
      exists (line :: body), rest. simpl. split_and!; [done | by f_equal | by constructor | done].
Qed.

Lemma collect_block_app (body rest : list string) (indent : string) :
  Forall (fun l => is_terminator l = false) body -> block_end rest ->
  collect_block (body ++ rest) indent = (body, fold_left next_indent body indent, rest).
Proof.
  intros Hb Hr. revert indent. induction Hb as [|line body Hline Hb IH]; intros indent; simpl.
  - destruct rest as [|t rest]; [done|]. simpl in Hr |- *. by rewrite Hr.
  - rewrite Hline, IH. done.
Qed.

Lemma collect_block_length (lines : list string) (indent : string) :
  length (collect_block lines indent).2 <= length lines.
Proof.
  destruct (collect_block_spec lines indent) as (body & rest & -> & -> & _).
  simpl. rewrite length_app. lia.
Qed.

(** The scan does not depend on the counter once it covers the lines. *)
Lemma scan_fuel_eq (f1 f2 : nat) (lines : list string) (modified : bool) :
  length lines <= f1 -> length lines <= f2 ->
  scan f1 lines modified = scan f2 lines modified.
Proof.
  revert f2 lines modified. induction f1 as [|f1 IH]; intros f2 lines modified H1 H2.
  - destruct lines; [|simpl in H1; lia]. by destruct f2.
  - destruct f2 as [|f2].
    + destruct lines; [done | simpl in H2; lia].
    + destruct lines as [|line rest]; [done|]. simpl in H1, H2. simpl.
      destruct (is_marker line).
      * pose proof (collect_block_length rest "") as Hl.
        destruct (collect_block rest "") as [[block_lines indent] rest']. simpl in Hl.
        rewrite (IH f2 rest' true) by lia. done.
      * rewrite (IH f2 rest modified) by lia. done.
Qed.

Lemma scan_fuel (fuel : nat) (lines : list string) (modified : bool) :
  length lines <= fuel -> scan fuel lines modified = scan (length lines) lines modified.
Proof. intros H. by apply scan_fuel_eq. Qed.

(** The lines produced do not depend on the incoming [modified]. *)
Lemma scan_lines_flag (fuel : nat) (lines : list string) (m1 m2 : bool) :
  (scan fuel lines m1).1 = (scan fuel lines m2).1.
Proof.
  revert lines m1 m2. induction fuel as [|f IH]; intros lines m1 m2; [done|].
  destruct lines as [|line rest]; [done|]. simpl.
  destruct (is_marker line).
  - destruct (collect_block rest "") as [[block_lines indent] rest'].
    destruct (scan f rest' true). done.
  - specialize (IH rest m1 m2).
    destruct (scan f rest m1), (scan f rest m2). simpl in *. by f_equal.
Qed.

Lemma duplicate_blocks_cons_other (line : string) (rest : list string) :
  is_marker line = false ->
  (duplicate_blocks (line :: rest)).1 = line :: (duplicate_blocks rest).1.
Proof.
  intros H. unfold duplicate_blocks. simpl. rewrite H.
  destruct (scan (length rest) rest false). done.
Qed.

Lemma duplicate_blocks_cons_marker (line : string) (body rest : list string) :
  is_marker line = true ->
  Forall (fun l => is_terminator l = false) body -> block_end rest ->
  (duplicate_blocks (line :: body ++ rest)).1
  = line :: body ++ x86_block (block_indent body) body ++ (duplicate_blocks rest).1.
Proof.
  intros Hm Hb Hr. unfold duplicate_blocks. simpl. rewrite Hm.
  rewrite (collect_block_app body rest "" Hb Hr).
  rewrite (scan_fuel (length (body ++ rest)) rest true) by (rewrite length_app; lia).
  rewrite (scan_lines_flag (length rest) rest false true).
  destruct (scan (length rest) rest true). done.
Qed.

(** The shape of the output around the first block of the input. *)
Lemma duplicate_blocks_first_block (pre : list string) (m : string) (body rest : list string) :
  Forall (fun l => is_marker l = false) pre -> is_marker m = true ->
  Forall (fun l => is_terminator l = false) body -> block_end rest ->
  (duplicate_blocks (pre ++ m :: body ++ rest)).1
  = pre ++ m :: body ++ x86_block (block_indent body) body ++ (duplicate_blocks rest).1.
Proof.
  intros Hpre Hm Hb Hr. induction Hpre as [|l pre Hl Hpre IH]; simpl.
  - by apply duplicate_blocks_cons_marker.
  - rewrite duplicate_blocks_cons_other by done. by rewrite IH.
Qed.

Lemma duplicate_blocks_head (t : string) (rest : list string) :
  exists tail, (duplicate_blocks (t :: rest)).1 = t :: tail.
Proof.
  unfold duplicate_blocks. simpl. destruct (is_marker t).
  - destruct (collect_block rest "") as [[block_lines indent] rest'].
    destruct (scan (length rest) rest' true). eauto.
  - destruct (scan (length rest) rest false). eauto.
Qed.

Lemma blocks_go_fuel_eq (f1 f2 : nat) (lines : list string) :
  length lines <= f1 -> length lines <= f2 -> blocks_go f1 lines = blocks_go f2 lines.
Proof.
  revert f2 lines. induction f1 as [|f1 IH]; intros f2 lines H1 H2.
  - destruct lines; [|simpl in H1; lia]. by destruct f2.
  - destruct f2 as [|f2].
    + destruct lines; [done | simpl in H2; lia].
    + destruct lines as [|line rest]; [done|]. simpl in H1, H2. simpl.
      destruct (is_marker line).
      * pose proof (collect_block_length rest "") as Hl.
        destruct (collect_block rest "") as [[block_lines indent] rest']. simpl in Hl.
        rewrite (IH f2 rest') by lia. done.
      * apply IH; lia.
Qed.

Lemma blocks_first_block (pre : list string) (m : string) (body rest : list string) :
  Forall (fun l => is_marker l = false) pre -> is_marker m = true ->
  Forall (fun l => is_terminator l = false) body -> block_end rest ->
  blocks (pre ++ m :: body ++ rest) = body :: blocks rest.
Proof.
  intros Hpre Hm Hb Hr. unfold blocks. induction Hpre as [|l pre Hl Hpre IH]; simpl.
  - rewrite Hm, (collect_block_app body rest "" Hb Hr). f_equal.
    apply blocks_go_fuel_eq; [rewrite length_app; lia | lia].
  - rewrite Hl. rewrite <- IH. apply blocks_go_fuel_eq; simpl; lia.
Qed.

(** Every input line is kept, in order, and each block adds its copy. *)
Lemma scan_keeps_lines (fuel : nat) (lines : list string) (modified : bool) :
  length lines <= fuel ->
  lines `sublist_of` (scan fuel lines modified).1
  /\ length (scan fuel lines modified).1
     = length lines + sum_list (map (fun b => S (length b)) (blocks_go fuel lines)).
Proof.
  revert lines modified. induction fuel as [|f IH]; intros lines modified Hlen.
  - destruct lines; [done | simpl in Hlen; lia].
  - destruct lines as [|line rest]; [done|]. simpl in Hlen. simpl.
    destruct (is_marker line).
    + pose proof (collect_block_length rest "") as Hl.
      destruct (collect_block_spec rest "") as (body & rest' & E & -> & _).
      rewrite E in *. simpl in Hl.
      destruct (IH rest' true ltac:(lia)) as [Hs Hn].
      destruct (scan f rest' true) as [out m]. simpl in *. split.
      * apply sublist_skip, sublist_app; [done|]. by apply sublist_cons, sublist_inserts_l.
      * rewrite !length_app. simpl. rewrite !length_app, length_map, Hn. lia.
    + destruct (IH rest modified ltac:(lia)) as [Hs Hn].
      destruct (scan f rest modified) as [out m]. simpl in *. split.
      * by apply sublist_skip.
      * by rewrite Hn.
Qed.

Lemma scan_no_marker (fuel : nat) (lines : list string) (modified : bool) :
  length lines <= fuel -> Forall (fun l => is_marker l = false) lines ->
  scan fuel lines modified = (lines, modified).
Proof.
  revert lines. induction fuel as [|f IH]; intros lines Hlen Hno.
  - destruct lines; [done | simpl in Hlen; lia].
  - destruct Hno as [|line rest Hline Hrest]; [done|]. simpl in Hlen. simpl.
    rewrite Hline, IH by (done || lia). done.
Qed.

Lemma scan_flag_true (fuel : nat) (lines : list string) :
  (scan fuel lines true).2 = true.
Proof.
  revert lines. induction fuel as [|f IH]; intros lines; [done|].
  destruct lines as [|line rest]; [done|]. simpl.
  destruct (is_marker line).
  - destruct (collect_block rest "") as [[block_lines indent] rest'].
    specialize (IH rest'). destruct (scan f rest' true). done.
  - specialize (IH rest). destruct (scan f rest true). done.
Qed.

Lemma duplicate_blocks_modified (pre : list string) (m : string) (rest : list string) :
  Forall (fun l => is_marker l = false) pre -> is_marker m = true ->
  (duplicate_blocks (pre ++ m :: rest)).2 = true.
Proof.
  intros Hpre Hm. unfold duplicate_blocks.
  induction Hpre as [|l pre Hl Hpre IH]; simpl.
  - rewrite Hm. destruct (collect_block rest "") as [[block_lines indent] rest'].
    pose proof (scan_flag_true (length rest) rest') as H.
    destruct (scan (length rest) rest' true). done.
  - rewrite Hl. destruct (scan (length (pre ++ m :: rest)) (pre ++ m :: rest) false). done.
Qed.

Lemma length_x86_block (indent : string) (body : list string) :
  length (x86_block indent body) = S (length body).
Proof. unfold x86_block. simpl. by rewrite length_map. Qed.

(** C1: the scan keeps every input line in order, grows the line count
    by one new marker line plus the rewritten body per duplicated
    block, and puts the copy of a block between the last body line of
    the block and the terminator line. *)
Theorem duplicate_blocks_inserts_after_block (lines : list string) :
  lines `sublist_of` (duplicate_blocks lines).1
  /\ length (duplicate_blocks lines).1
     = length lines + sum_list (map (fun body => S (length body)) (blocks lines))
  /\ forall pre m body t rest,
       lines = pre ++ m :: body ++ t :: rest ->
       Forall (fun l => is_marker l = false) pre -> is_marker m = true ->
       Forall (fun l => is_terminator l = false) body -> is_terminator t = true ->
       exists tail,
         (duplicate_blocks lines).1
         = pre ++ m :: body ++ x86_block (block_indent body) body ++ t :: tail
         /\ (duplicate_blocks (t :: rest)).1 = t :: tail
         /\ length (x86_block (block_indent body) body) = S (length body)
         /\ blocks lines = body :: blocks (t :: rest).
Proof.
  destruct (scan_keeps_lines (length lines) lines false) as [Hs Hn]; [done|].
  split_and!; [done | done |].
  intros pre m body t rest -> Hpre Hm Hb Ht.
  destruct (duplicate_blocks_head t rest) as [tail Htail].
  exists tail. split_and!.
  - rewrite duplicate_blocks_first_block by done. by rewrite Htail.
  - done.
  - apply length_x86_block.
  - by apply blocks_first_block.
Qed.

(** C4: every body line of the copy is the original with [aarch64] and
    then [arm64] replaced by [x86_64], over the whole line; a block with
    the one body line [a: arm64_flag] comes out as the original line,
    the new marker line, [a: x86_64_flag], and then the terminator. *)
Theorem body_rewritten_by_rules_in_order :
  (forall bl, modified_line bl = replace "arm64" "x86_64" (replace "aarch64" "x86_64" bl))
  /\ (forall pre m body rest,
        Forall (fun l => is_marker l = false) pre -> is_marker m = true ->
        Forall (fun l => is_terminator l = false) body -> block_end rest ->
        (duplicate_blocks (pre ++ m :: body ++ rest)).1
        = pre ++ m :: body
          ++ (block_indent body +:+ x86_64_marker) :: map modified_line body
          ++ (duplicate_blocks rest).1)
  /\ (forall m, is_marker m = true ->
        (duplicate_blocks [m; "a: arm64_flag"; "fi"]).1
        = [m; "a: arm64_flag"; x86_64_marker; "a: x86_64_flag"; "fi"]).
Proof.
  split_and!.
  - done.
  - intros pre m body rest Hpre Hm Hb Hr.
    by rewrite duplicate_blocks_first_block.
  - intros m Hm.
    change [m; "a: arm64_flag"; "fi"] with (m :: ["a: arm64_flag"] ++ ["fi"]).
    rewrite (duplicate_blocks_cons_marker m ["a: arm64_flag"] ["fi"] Hm)
      by (repeat constructor).
    reflexivity.
Qed.

(** C10: when no terminator follows the marker, all the remaining lines
    are the body and the copy of the block ends the output. *)
Theorem block_without_terminator_appended_at_end (pre : list string) (m : string) (body : list string) :
  Forall (fun l => is_marker l = false) pre -> is_marker m = true ->
  Forall (fun l => is_terminator l = false) body ->
  duplicate_blocks (pre ++ m :: body)
  = (pre ++ m :: body ++ (block_indent body +:+ x86_64_marker) :: map modified_line body, true).
Proof.
  intros Hpre Hm Hb.
  pose proof (duplicate_blocks_first_block pre m body [] Hpre Hm Hb I) as H1.
  pose proof (duplicate_blocks_modified pre m body Hpre Hm) as H2.
  rewrite app_nil_r in H1.
  destruct (duplicate_blocks (pre ++ m :: body)) as [out flag]. simpl in *.
  subst. rewrite app_nil_r. done.
Qed.

(** ** The new marker line *)

Lemma fold_next_indent (body : list string) (indent : string) :
  fold_left next_indent body indent
  = if truthy indent then indent else first_indent body.
Proof.
  revert indent. induction body as [|line body IH]; intros indent; simpl.
  - by destruct indent.
  - rewrite IH. unfold next_indent.
    destruct indent as [|c indent]; simpl; [|done].
    destruct (truthy (strip line)); simpl; [|done].
    by destruct (leading_ws line).
Qed.

Lemma block_indent_first (body : list string) : block_indent body = first_indent body.
Proof. unfold block_indent. by rewrite fold_next_indent. Qed.

Lemma lstrip_length (s : string) : String.length (lstrip s) <= String.length s.
Proof.
  induction s as [|c s IH]; simpl; [done|].
  destruct (isspace c); simpl; lia.
Qed.

Lemma leading_ws_spaces (line : string) :
  Forall (fun c => isspace c = true) (chars (leading_ws line)).
Proof.
  unfold leading_ws, slice_to. induction line as [|c line IH]; simpl; [done|].
  destruct (isspace c) eqn:E; simpl.
  - pose proof (lstrip_length line).
    replace (S (String.length line) - String.length (lstrip line))
      with (S (String.length line - String.length (lstrip line))) by lia.
    simpl. by constructor.
  - rewrite Nat.sub_diag. simpl. done.
Qed.

Lemma first_indent_spaces (body : list string) :
  Forall (fun c => isspace c = true) (chars (first_indent body)).
Proof.
  induction body as [|line body IH]; simpl; [done|].
  destruct (truthy (strip line) && truthy (leading_ws line)); [|done].
  apply leading_ws_spaces.
Qed.

(** [str.replace] leaves a whitespace prefix alone when the old text
    starts with a character that is not whitespace. *)
Lemma replace_after_spaces (a : ascii) (old new ws s : string) :
  isspace a = false ->
  Forall (fun c => isspace c = true) (chars ws) ->
  replace (String a old) new (ws +:+ s) = ws +:+ replace (String a old) new s.
Proof.
  intros Ha Hws. induction ws as [|c ws IH]; [done|].
  simpl in Hws. inversion Hws as [|? ? Hc Hws']; subst.
  change (String c ws +:+ s) with (String c (ws +:+ s)).
  rewrite replace_skip; [by rewrite IH | done |].
  simpl. destruct (Ascii.eqb_spec a c) as [->|_]; [congruence | done].
Qed.

(** C2, as amended: the new marker line is the [indent] taken from the
    block body (the leading whitespace of its first line that is
    neither blank nor unindented, else nothing) followed by the fixed
    text [elif [ "$(TARGET_CPU)" == "ios_x86_64" ]; then]; it is the
    matched marker line with [ios_sim_arm64] replaced by [ios_x86_64]
    when that line is exactly this indentation followed by the marker
    text. *)
Theorem new_marker_line_is_indent_and_literal
    (pre : list string) (m : string) (body rest : list string) :
  Forall (fun l => is_marker l = false) pre -> is_marker m = true ->
  Forall (fun l => is_terminator l = false) body -> block_end rest ->
  (duplicate_blocks (pre ++ m :: body ++ rest)).1 !! (length pre + 1 + length body)
  = Some (first_indent body +:+ x86_64_marker)
  /\ (m = first_indent body +:+ sim_arm64_marker ->
      first_indent body +:+ x86_64_marker = replace "ios_sim_arm64" "ios_x86_64" m).
Proof.
  intros Hpre Hm Hb Hr. split.
  - rewrite duplicate_blocks_first_block, block_indent_first by done.
    rewrite lookup_app_r by lia.
    replace (length pre + 1 + length body - length pre) with (S (length body)) by lia.
    simpl. rewrite lookup_app_r by lia. by rewrite Nat.sub_diag.
  - intros ->. rewrite replace_after_spaces; [done | done | apply first_indent_spaces].
Qed.

(** C2 fails as stated: the marker line [  elif ... "ios_sim_arm64" ]; then # sim]
    over a body indented by six yields a new marker line that starts
    with the six spaces of the body and drops the comment, so it is not
    the marker line with its token replaced, whatever the new token. *)
Lemma new_marker_line_drops_marker_text :
  is_marker commented_marker = true
  /\ (duplicate_blocks commented_block).1 !! 3 = Some ("      " +:+ x86_64_marker)
  /\ forall tok, replace "ios_sim_arm64" tok commented_marker <> "      " +:+ x86_64_marker.
Proof.
  split_and!; [reflexivity | reflexivity |].
  intros tok H. vm_compute in H. discriminate H.
Qed.

Lemma new_marker_line_is_indent_and_literal_witness :
  (duplicate_blocks indented_block).1 !! 3 = Some ("  " +:+ x86_64_marker)
  /\ "  " +:+ x86_64_marker
     = replace "ios_sim_arm64" "ios_x86_64" ("  " +:+ sim_arm64_marker).
Proof.
  destruct (new_marker_line_is_indent_and_literal
              ["if a; then"] ("  " +:+ sim_arm64_marker) ["  echo arm64"] ["  fi"])
    as [H1 H2].
  - repeat constructor.
  - reflexivity.
  - repeat constructor.
  - reflexivity.
  - split; [exact H1 | apply H2; reflexivity].
Defined.

Lemma duplicate_blocks_inserts_after_block_witness :
  exists tail,
    (duplicate_blocks commented_block).1
    = ["if a; then"; commented_marker; "      echo arm64";
       "      " +:+ x86_64_marker; "      echo x86_64"; "  fi"] ++ tail.
Proof.
  destruct (duplicate_blocks_inserts_after_block commented_block) as (_ & _ & H).
  destruct (H ["if a; then"] commented_marker ["      echo arm64"] "  fi" [])
    as (tail & H1 & _).
  - reflexivity.
  - repeat constructor.
  - reflexivity.
  - repeat constructor.
  - reflexivity.
  - exists tail. exact H1.
Defined.

Lemma body_rewritten_by_rules_in_order_witness :
  (duplicate_blocks [sim_arm64_marker; "a: arm64_flag"; "fi"]).1
  = [sim_arm64_marker; "a: arm64_flag"; x86_64_marker; "a: x86_64_flag"; "fi"].
Proof.
  destruct body_rewritten_by_rules_in_order as (_ & _ & H).
  apply (H sim_arm64_marker). reflexivity.
Defined.

Lemma block_without_terminator_appended_at_end_witness :
  duplicate_blocks ["if a; then"; sim_arm64_marker; "  cc -arch arm64"; "  ld aarch64"]
  = (["if a; then"; sim_arm64_marker; "  cc -arch arm64"; "  ld aarch64";
      "  " +:+ x86_64_marker; "  cc -arch x86_64"; "  ld x86_64"], true).
Proof.
  apply (block_without_terminator_appended_at_end
           ["if a; then"] sim_arm64_marker ["  cc -arch arm64"; "  ld aarch64"]).
  - repeat constructor.
  - reflexivity.
  - repeat constructor.
Defined.

(** ** Lines and content *)

Lemma split_cons (sep : ascii) (s : string) :
  exists l ls, split sep s = l :: ls.
Proof.
  induction s as [|c s (l & ls & IH)]; simpl; [eauto|].
  rewrite IH. destruct (Ascii.eqb c sep); eauto.
Qed.

Lemma join_cons_cons (sep x y : string) (l : list string) :
  join sep (x :: y :: l) = x +:+ sep +:+ join sep (y :: l).
Proof. done. Qed.

(** ['\n'.join(content.split('\n')) == content] *)
Lemma join_split (s : string) : join nl (split NL s) = s.
Proof.
  induction s as [|c s IH]; simpl; [done|].
  destruct (split_cons NL s) as (l & ls & E). rewrite E in *.
  destruct (Ascii.eqb_spec c NL) as [->|_].
  - rewrite join_cons_cons, IH. done.
  - simpl hd. simpl tl. destruct ls as [|y ls].
    + simpl in *. by rewrite IH.
    + rewrite join_cons_cons in *. by rewrite <- IH.
Qed.

(** Lines kept in order give text kept in order. *)
Lemma join_sublist (sep : string) (l1 l2 : list string) :
  l1 `sublist_of` l2 -> subtext (join sep l1) (join sep l2).
Proof.
  induction 1 as [|x l1 l2 H IH|x l1 l2 H IH].
  - apply subtext_refl.
  - destruct l1 as [|y1 l1], l2 as [|y2 l2].
    + apply subtext_refl.
    + rewrite join_cons_cons. simpl join at 1.
      rewrite <- (app_empty_r x) at 1.
      apply subtext_app; [apply subtext_refl | apply sublist_nil_l].
    + by apply sublist_nil_r in H.
    + rewrite !join_cons_cons.
      apply subtext_app; [apply subtext_refl|].
      apply subtext_app; [apply subtext_refl | done].
  - destruct l2 as [|y2 l2].
    + apply sublist_nil_r in H as ->. apply sublist_nil_l.
    + rewrite join_cons_cons. do 2 apply subtext_insert_l. done.
Qed.

Lemma prefix_contains (sub s : string) : String.prefix sub s = true -> contains sub s = true.
Proof. intros H. destruct s; simpl in *; by rewrite H. Qed.

Lemma contains_cons (sub : string) (c : ascii) (s : string) :
  contains sub s = true -> contains sub (String c s) = true.
Proof. intros H. simpl. rewrite H. apply orb_true_r. Qed.

Lemma prefix_first_line (sub s : string) :
  NL ∉ chars sub -> String.prefix sub s = true ->
  String.prefix sub (hd "" (split NL s)) = true.
Proof.
  revert s. induction sub as [|a sub IH]; intros s Hnl H.
  - by destruct (hd "" (split NL s)).
  - destruct s as [|c s]; [done|]. simpl in H.
    destruct (ascii_dec a c) as [<-|]; [|done].
    simpl in Hnl. apply not_elem_of_cons in Hnl as [Ha Hsub].
    simpl. destruct (Ascii.eqb_spec a NL) as [->|_]; [done|].
    simpl. destruct (ascii_dec a a); [|done]. by apply IH.
Qed.

(** A text without a newline that occurs in the content occurs in one
    of its lines. *)
Lemma contains_some_line (sub s : string) :
  NL ∉ chars sub -> contains sub s = true ->
  Exists (fun l => contains sub l = true) (split NL s).
Proof.
  intros Hnl. induction s as [|c s IH]; intros H.
  - simpl. by constructor.
  - change (contains sub (String c s))
      with (String.prefix sub (String c s) || contains sub s) in H.
    apply orb_true_iff in H as [H|H].
    + apply (prefix_first_line _ _ Hnl) in H.
      destruct (split_cons NL (String c s)) as (l & ls & E). rewrite E in *.
      constructor. by apply prefix_contains.
    + specialize (IH H). simpl.
      destruct (split_cons NL s) as (l & ls & E). rewrite E in *.
      destruct (Ascii.eqb c NL).
      * by apply Exists_cons_tl.
      * simpl. apply Exists_cons in IH as [IH|IH].
        -- apply Exists_cons_hd. by apply contains_cons.
        -- by apply Exists_cons_tl.
Qed.

Lemma no_marker_line_no_marker (content : string) :
  Forall (fun l => is_marker l = false) (split NL content) ->
  contains sim_arm64_marker content = false.
Proof.
  intros Hall. destruct (contains sim_arm64_marker content) eqn:E; [|done].
  apply contains_some_line in E.
  - apply Exists_exists in E as (l & Hin & Hl).
    rewrite Forall_forall in Hall. specialize (Hall l Hin).
    unfold is_marker in Hall. congruence.
  - vm_compute. intros H. repeat (apply elem_of_cons in H as [H|H]; [discriminate H|]).
    by apply elem_of_nil in H.
Qed.

(** ** Newline translation *)

Lemma prefix_nil_l (s : string) : String.prefix "" s = true.
Proof. by destruct s. Qed.

Lemma contains_nil_l (s : string) : contains "" s = true.
Proof. by destruct s. Qed.

Lemma contains_unfold (sub : string) (c : ascii) (s : string) :
  contains sub (String c s) = String.prefix sub (String c s) || contains sub s.
Proof. done. Qed.

Lemma universal_newlines_cons (c : ascii) (s : string) :
  c <> CR -> universal_newlines (String c s) = String c (universal_newlines s).
Proof. intros H. simpl. by destruct (Ascii.eqb_spec c CR). Qed.

Lemma universal_newlines_cr (s : string) :
  universal_newlines (String CR s)
  = match s with
    | String d _ => if Ascii.eqb d NL then universal_newlines s
                    else String NL (universal_newlines s)
    | "" => String NL (universal_newlines s)
    end.
Proof. done. Qed.

Lemma prefix_newlines (m s : string) :
  CR ∉ chars m -> NL ∉ chars m ->
  String.prefix m (universal_newlines s) = String.prefix m s.
Proof.
  revert s. induction m as [|a m IH]; intros s Hcr Hnl.
  - by rewrite !prefix_nil_l.
  - simpl in Hcr, Hnl. apply not_elem_of_cons in Hcr as [Hcr Hcr'].
    apply not_elem_of_cons in Hnl as [Hnl Hnl'].
    destruct s as [|c s]; [done|].
    destruct (ascii_dec c CR) as [->|Hc].
    + rewrite universal_newlines_cr.
      transitivity false; [|simpl; by destruct (ascii_dec a CR)].
      destruct s as [|d s].
      * simpl. by destruct (ascii_dec a NL).
      * destruct (Ascii.eqb_spec d NL) as [->|Hd].
        -- rewrite universal_newlines_cons by done. simpl. by destruct (ascii_dec a NL).
        -- simpl. by destruct (ascii_dec a NL).
    + rewrite universal_newlines_cons by done. simpl.
      destruct (ascii_dec a c); [by apply IH | done].
Qed.

(** A text without [\r] and [\n] is in the content read exactly when it
    is in the content stored. *)
Lemma contains_newlines (m s : string) :
  CR ∉ chars m -> NL ∉ chars m ->
  contains m (universal_newlines s) = contains m s.
Proof.
  intros Hcr Hnl. destruct m as [|a m]; [by rewrite !contains_nil_l|].
  assert (a <> CR /\ a <> NL) as [Ha1 Ha2].
  { simpl in Hcr, Hnl. apply not_elem_of_cons in Hcr as [? _].
    apply not_elem_of_cons in Hnl as [? _]. done. }
  induction s as [|c s IH]; [done|].
  rewrite (contains_unfold _ c s).
  destruct (ascii_dec c CR) as [->|Hc].
  - rewrite universal_newlines_cr.
    replace (String.prefix (String a m) (String CR s)) with false
      by (simpl; by destruct (ascii_dec a CR)).
    destruct s as [|d s].
    + simpl. by destruct (ascii_dec a NL).
    + destruct (Ascii.eqb_spec d NL) as [->|Hd]; [exact IH|].
      rewrite contains_unfold, IH. simpl. by destruct (ascii_dec a NL).
  - rewrite <- (prefix_newlines (String a m) (String c s)) by done.
    rewrite universal_newlines_cons by done.
    by rewrite contains_unfold, IH.
Qed.

Lemma universal_newlines_no_cr (s : string) : CR ∉ chars (universal_newlines s).
Proof.
  induction s as [|c s IH]; [apply not_elem_of_nil|].
  destruct (ascii_dec c CR) as [->|Hc].
  - rewrite universal_newlines_cr. destruct s as [|d s].
    + simpl. apply not_elem_of_cons. split; [done | apply not_elem_of_nil].
    + destruct (Ascii.eqb d NL); [exact IH|].
      simpl chars. apply not_elem_of_cons. split; [done | exact IH].
  - rewrite universal_newlines_cons by done.
    simpl chars. apply not_elem_of_cons. split; [congruence | exact IH].
Qed.

Lemma universal_newlines_id (s : string) : CR ∉ chars s -> universal_newlines s = s.
Proof.
  induction s as [|c s IH]; intros H; [done|].
  simpl in H. apply not_elem_of_cons in H as [Hc Hs].
  rewrite universal_newlines_cons by congruence. by rewrite IH.
Qed.

Lemma universal_newlines_idem (s : string) :
  universal_newlines (universal_newlines s) = universal_newlines s.
Proof. apply universal_newlines_id, universal_newlines_no_cr. Qed.

Ltac clean_text :=
  vm_compute; let H := fresh in
  intros H; repeat (apply elem_of_cons in H as [H|H]; [discriminate H|]);
  by apply elem_of_nil in H.

Lemma ios_sim_x86_64_newlines (c : string) :
  contains "ios_sim_x86_64" (universal_newlines c) = contains "ios_sim_x86_64" c.
Proof. apply contains_newlines; clean_text. Qed.

Lemma debug_sim_x86_64_newlines (c : string) :
  contains "debug_sim_x86_64" (universal_newlines c) = contains "debug_sim_x86_64" c.
Proof. apply contains_newlines; clean_text. Qed.

Lemma ios_x86_64_newlines (c : string) :
  contains "ios_x86_64" (universal_newlines c) = contains "ios_x86_64" c.
Proof. apply contains_newlines; clean_text. Qed.

Lemma sim_arm64_marker_newlines (c : string) :
  contains sim_arm64_marker (universal_newlines c) = contains sim_arm64_marker c.
Proof. apply contains_newlines; clean_text. Qed.

(** ** The patch functions, case by case *)

Section Steps.

Variable timestamp : string -> string.

Lemma numbered_steps_shape :
  patch_build_system_build timestamp
  = patch_with timestamp "[1/8] Patching " "ios_sim_x86_64"
      "  [DRY RUN] Would replace entire file with x86_64 config settings"
      (fun _ => new_config_settings)
      "  Successfully added ios_sim_x86_64 and ios_x86_64 config settings"
  /\ patch_webrtc_build timestamp
     = patch_with timestamp "[2/8] Patching " "ios_sim_x86_64"
         "  [DRY RUN] Would add x86_64 support to arch_specific_sources and arch_specific_cflags"
         webrtc_content "  Successfully added x86_64 support"
  /\ patch_libyuv_build timestamp
     = patch_with timestamp "[3/8] Patching " "ios_sim_x86_64"
         "  [DRY RUN] Would add x86_64 support to select() statements"
         libyuv_content "  Successfully added x86_64 support"
  /\ patch_openh264_build timestamp
     = patch_with timestamp "[4/8] Patching " "ios_sim_x86_64"
         "  [DRY RUN] Would add x86_64 support to select() statements"
         openh264_content "  Successfully added x86_64 support"
  /\ patch_libsrtp_build timestamp
     = patch_with timestamp "[5/8] Patching " "ios_sim_x86_64"
         "  [DRY RUN] Would add x86_64 support to select() statements"
         libsrtp_content "  Successfully added x86_64 support"
  /\ patch_crc32c_build timestamp
     = patch_with timestamp "[6/8] Patching " "ios_sim_x86_64"
         "  [DRY RUN] Would add x86_64 support to select() statements"
         crc32c_content "  Successfully added x86_64 support"
  /\ patch_make_py timestamp
     = patch_with timestamp "[7/8] Patching " "debug_sim_x86_64"
         "  [DRY RUN] Would add debug_sim_x86_64 and release_sim_x86_64 configurations"
         make_py_content
         "  Successfully added debug_sim_x86_64 and release_sim_x86_64 configurations".
Proof. split_and!; reflexivity. Qed.

Lemma path_exists_Some (p c : string) (w : world) :
  files w !! p = Some c -> path_exists p w = Some (true, w).
Proof. intros H. unfold path_exists. rewrite H. by rewrite bool_decide_true by eauto. Qed.

Lemma path_exists_None (p : string) (w : world) :
  files w !! p = None -> path_exists p w = Some (false, w).
Proof.
  intros H. unfold path_exists. rewrite H.
  rewrite bool_decide_false; [done|]. by intros [? ?].
Qed.

(** How a computation runs, one primitive at a time. *)
Lemma run_bind {A B : Type} (m : M A) (f : A -> M B) (w : world) :
  (m ≫= f) w = match m w with Some (a, w') => f a w' | None => None end.
Proof. done. Qed.

Lemma run_ret {A : Type} (a : A) (w : world) : (mret a : M A) w = Some (a, w).
Proof. done. Qed.

Lemma run_ret_bind {A B : Type} (a : A) (f : A -> M B) (w : world) :
  (mret a ≫= f) w = f a w.
Proof. done. Qed.

Lemma run_print {B : Type} (msg : string) (f : unit -> M B) (w : world) :
  (print msg ≫= f) w = f tt (emit (Print msg) w).
Proof. done. Qed.

Lemma run_exists {B : Type} (p : string) (f : bool -> M B) (w : world) :
  (path_exists p ≫= f) w = f (bool_decide (is_Some (files w !! p))) w.
Proof. done. Qed.

Lemma run_read {B : Type} (p c : string) (f : string -> M B) (w : world) :
  files w !! p = Some c ->
  (read_file p ≫= f) w = f (universal_newlines c) (emit (ReadFile p) w).
Proof. intros H. rewrite run_bind. unfold read_file. by rewrite H. Qed.

Lemma run_write {B : Type} (p c : string) (f : unit -> M B) (w : world) :
  (write_file p c ≫= f) w
  = f tt (emit (WriteFile p c) (World (<[p := c]> (files w)) (log w))).
Proof. done. Qed.

Lemma run_backup {B : Type} (p c : string) (f : string -> M B) (w : world) :
  files w !! p = Some c ->
  (backup_file timestamp p ≫= f) w
  = f (backup_path timestamp p)
      (emit (Print ("  Backup created: " +:+ backup_path timestamp p))
         (emit (Copy2 p (backup_path timestamp p))
            (World (<[backup_path timestamp p := c]> (files w)) (log w)))).
Proof.
  intros H. rewrite run_bind. unfold backup_file. rewrite run_bind.
  unfold copy2. rewrite H. done.
Qed.

Lemma exists_true (p c : string) (w : world) :
  files w !! p = Some c -> bool_decide (is_Some (files w !! p)) = true.
Proof. intros H. rewrite H. by apply bool_decide_true. Qed.

Lemma exists_false (p : string) (w : world) :
  files w !! p = None -> bool_decide (is_Some (files w !! p)) = false.
Proof. intros H. rewrite H. apply bool_decide_false. by intros [? ?]. Qed.

Lemma files_emit (e : event) (w : world) : files (emit e w) = files w.
Proof. done. Qed.

Ltac run :=
  repeat first
    [ rewrite run_print
    | rewrite run_exists
    | rewrite run_write
    | rewrite run_ret_bind
    | rewrite run_ret
    | erewrite run_read by (rewrite ?files_emit; eassumption)
    | erewrite run_backup by (rewrite ?files_emit; eassumption) ].

Ltac finish_world :=
  unfold emit; cbn [files log]; rewrite <- ?app_assoc; reflexivity.

Section Shape.

Variables (label patched dry_msg : string) (rewrite : string -> string) (done_msg : string).

Local Abbreviation patch := (patch_with timestamp label patched dry_msg rewrite done_msg).

Lemma patch_with_missing (p : string) (dry_run : bool) (w : world) :
  files w !! p = None ->
  patch p dry_run w
  = Some (false, World (files w)
                   (log w ++ [Print (nl +:+ label +:+ p);
                              Print ("  ERROR: File not found: " +:+ p)])).
Proof.
  intros H. unfold patch_with. run.
  rewrite files_emit, exists_false by done. cbn [negb]. run. finish_world.
Qed.

Lemma patch_with_already (p c : string) (dry_run : bool) (w : world) :
  files w !! p = Some c -> contains patched (universal_newlines c) = true ->
  patch p dry_run w
  = Some (true, World (files w)
                  (log w ++ [Print (nl +:+ label +:+ p); ReadFile p;
                             Print "  Already patched, skipping."])).
Proof.
  intros H Hc. unfold patch_with. run.
  rewrite files_emit, (exists_true p c) by done. cbn [negb]. run.
  rewrite Hc. run. finish_world.
Qed.

Lemma patch_with_dry_run (p c : string) (w : world) :
  files w !! p = Some c -> contains patched (universal_newlines c) = false ->
  patch p true w
  = Some (true, World (files w)
                  (log w ++ [Print (nl +:+ label +:+ p); ReadFile p; Print dry_msg])).
Proof.
  intros H Hc. unfold patch_with. run.
  rewrite files_emit, (exists_true p c) by done. cbn [negb]. run.
  rewrite Hc. run. finish_world.
Qed.

Lemma patch_with_write (p c : string) (w : world) :
  files w !! p = Some c -> contains patched (universal_newlines c) = false ->
  patch p false w
  = Some (true, World (<[p := rewrite (universal_newlines c)]>
                         (<[backup_path timestamp p := c]> (files w)))
                  (log w ++ [Print (nl +:+ label +:+ p); ReadFile p;
                             Copy2 p (backup_path timestamp p);
                             Print ("  Backup created: " +:+ backup_path timestamp p);
                             WriteFile p (rewrite (universal_newlines c)); Print done_msg])).
Proof.
  intros H Hc. unfold patch_with. run.
  rewrite files_emit, (exists_true p c) by done. cbn [negb]. run.
  rewrite Hc. run. finish_world.
Qed.

End Shape.

(** *** One genrule file *)

Lemma genrule_file_missing (p : string) (dry_run : bool) (n : nat) (w : world) :
  files w !! p = None ->
  patch_genrule_file timestamp p dry_run n w
  = Some (n, World (files w) (log w ++ [Print ("  WARNING: File not found: " +:+ p)])).
Proof.
  intros H. unfold patch_genrule_file. run.
  rewrite exists_false by done. cbn [negb]. run. finish_world.
Qed.

Lemma genrule_file_already (p c : string) (dry_run : bool) (n : nat) (w : world) :
  files w !! p = Some c -> contains "ios_x86_64" (universal_newlines c) = true ->
  patch_genrule_file timestamp p dry_run n w
  = Some (n, World (files w)
               (log w ++ [ReadFile p; Print ("  " +:+ p +:+ ": Already patched, skipping.")])).
Proof.
  intros H Hc. unfold patch_genrule_file. run.
  rewrite (exists_true p c) by done. cbn [negb]. run.
  rewrite Hc. run. finish_world.
Qed.

Lemma genrule_file_dry_run (p c : string) (n : nat) (w : world) :
  files w !! p = Some c -> contains "ios_x86_64" (universal_newlines c) = false ->
  patch_genrule_file timestamp p true n w
  = Some (n + 1, World (files w)
                   (log w ++ [ReadFile p; Print ("  [DRY RUN] Would patch " +:+ p)])).
Proof.
  intros H Hc. unfold patch_genrule_file. run.
  rewrite (exists_true p c) by done. cbn [negb]. run.
  rewrite Hc. run. finish_world.
Qed.

Lemma genrule_file_write (p c : string) (n : nat) (w : world) :
  files w !! p = Some c -> contains "ios_x86_64" (universal_newlines c) = false ->
  patch_genrule_file timestamp p false n w
  = Some (if (patch_genrule_content (universal_newlines c)).2 then n + 1 else n,
          World (<[p := (patch_genrule_content (universal_newlines c)).1]>
                   (<[backup_path timestamp p := c]> (files w)))
            (log w ++ [ReadFile p;
                       Copy2 p (backup_path timestamp p);
                       Print ("  Backup created: " +:+ backup_path timestamp p);
                       WriteFile p (patch_genrule_content (universal_newlines c)).1;
                       Print (if (patch_genrule_content (universal_newlines c)).2
                              then "  " +:+ p +:+ ": Successfully patched"
                              else "  " +:+ p +:+ ": No changes needed or pattern not found")])).
Proof.
  intros H Hc. unfold patch_genrule_file. run.
  rewrite (exists_true p c) by done. cbn [negb]. run.
  rewrite Hc. run.
  destruct (patch_genrule_content (universal_newlines c)) as [c' [|]]; run; finish_world.
Qed.

(** *** Frames *)

Lemma quiet_refl (w : world) : quiet w w.
Proof. split; [done|]. exists []. by rewrite app_nil_r. Qed.

Lemma quiet_trans (w1 w2 w3 : world) : quiet w1 w2 -> quiet w2 w3 -> quiet w1 w3.
Proof.
  intros [F1 (e1 & L1 & Q1)] [F2 (e2 & L2 & Q2)]. split; [congruence|].
  exists (e1 ++ e2). split; [by rewrite L2, L1, app_assoc | by apply Forall_app].
Qed.

Lemma quiet_events (w : world) (evs : list event) :
  forallb (fun e => negb (mutates e)) evs = true ->
  quiet w (World (files w) (log w ++ evs)).
Proof.
  intros H. split; [done|]. exists evs. split; [done|].
  apply Forall_forall. intros e He. rewrite forallb_forall in H.
  apply list_elem_of_In in He. specialize (H e He). by destruct (mutates e).
Qed.

Lemma quiet_emit_print (msg : string) (w : world) : quiet w (emit (Print msg) w).
Proof. by apply (quiet_events w [Print msg]). Qed.

Lemma extends_refl (w : world) : extends w w.
Proof. exists []. by rewrite app_nil_r. Qed.

Lemma extends_trans (w1 w2 w3 : world) : extends w1 w2 -> extends w2 w3 -> extends w1 w3.
Proof. intros [e1 L1] [e2 L2]. exists (e1 ++ e2). by rewrite L2, L1, app_assoc. Qed.

Lemma extends_elem (w w' : world) (e : event) : extends w w' -> e ∈ log w -> e ∈ log w'.
Proof. intros [evs ->] H. apply elem_of_app. by left. Qed.

Lemma quiet_extends (w w' : world) : quiet w w' -> extends w w'.
Proof. intros [_ (evs & L & _)]. by exists evs. Qed.

Lemma same_sources_refl (w : world) : same_sources w w.
Proof. by intros q _. Qed.

Lemma same_sources_trans (w1 w2 w3 : world) :
  same_sources w1 w2 -> same_sources w2 w3 -> same_sources w1 w3.
Proof. intros H1 H2 q Hq. rewrite (H2 q Hq). by apply H1. Qed.

Lemma quiet_same_sources (w w' : world) : quiet w w' -> same_sources w w'.
Proof. intros [F _] q _. by rewrite F. Qed.

Lemma prefix_app (a b : string) : String.prefix a (a +:+ b) = true.
Proof.
  induction a as [|c a IH]; simpl; [by destruct b|].
  by destruct (ascii_dec c c).
Qed.

Lemma contains_app (a sub b : string) : contains sub (a +:+ sub +:+ b) = true.
Proof.
  induction a as [|c a IH].
  - change ("" +:+ sub +:+ b) with (sub +:+ b). apply prefix_contains, prefix_app.
  - change (String c a +:+ sub +:+ b) with (String c (a +:+ sub +:+ b)).
    by apply contains_cons.
Qed.

Lemma backup_path_is_backup (p : string) : contains ".backup." (backup_path timestamp p) = true.
Proof. apply contains_app. Qed.

Lemma backup_path_ne (p q : string) :
  contains ".backup." q = false -> q <> backup_path timestamp p.
Proof. intros H ->. by rewrite backup_path_is_backup in H. Qed.

Lemma same_sources_write (p c c' : string) (w : world) (evs : list event) :
  files w !! p = Some c ->
  same_sources w (World (<[p := c']> (<[backup_path timestamp p := c]> (files w))) evs).
Proof.
  intros H q Hq. cbn [files].
  destruct (decide (p = q)) as [<-|Hne].
  - rewrite lookup_insert_eq, H. split; eauto.
  - rewrite lookup_insert_ne by done.
    rewrite lookup_insert_ne; [done|]. intros E. by apply (backup_path_ne p q).
Qed.

(** *** Every numbered step returns, and what it leaves behind *)

Lemma patch_with_total (label patched dry_msg : string) (rewrite : string -> string)
    (done_msg : string) (p : string) (dry_run : bool) (w : world) :
  exists w',
    patch_with timestamp label patched dry_msg rewrite done_msg p dry_run w
    = Some (bool_decide (is_Some (files w !! p)), w')
    /\ (exists evs, log w' = log w ++ Print (nl +:+ label +:+ p) :: evs)
    /\ same_sources w w'
    /\ (dry_run = true -> quiet w w').
Proof.
  destruct (files w !! p) as [c|] eqn:H.
  - rewrite bool_decide_true by eauto.
    destruct (contains patched (universal_newlines c)) eqn:Hc.
    + eexists. split; [by apply (patch_with_already _ _ _ _ _ p c)|].
      split_and!; [by eexists | by apply quiet_same_sources, quiet_events|].
      intros _. by apply quiet_events.
    + destruct dry_run.
      * eexists. split; [by apply (patch_with_dry_run _ _ _ _ _ p c)|].
        split_and!; [by eexists | by apply quiet_same_sources, quiet_events|].
        intros _. by apply quiet_events.
      * eexists. split; [by apply (patch_with_write _ _ _ _ _ p c)|].
        split_and!; [by eexists | by apply same_sources_write | done].
  - rewrite bool_decide_false by (by intros [? ?]).
    eexists. split; [by apply patch_with_missing|].
    split_and!; [by eexists | by apply quiet_same_sources, quiet_events|].
    intros _. by apply quiet_events.
Qed.

Lemma genrule_file_total (p : string) (dry_run : bool) (n : nat) (w : world) :
  exists n' w',
    patch_genrule_file timestamp p dry_run n w = Some (n', w')
    /\ extends w w' /\ same_sources w w'
    /\ (dry_run = true -> quiet w w' /\ n' = n + (if would_patch w p then 1 else 0)).
Proof.
  unfold would_patch. destruct (files w !! p) as [c|] eqn:H.
  - rewrite <- (ios_x86_64_newlines c).
    destruct (contains "ios_x86_64" (universal_newlines c)) eqn:Hc.
    + do 2 eexists. split; [by apply (genrule_file_already p c)|].
      split_and!; [by eexists | by apply quiet_same_sources, quiet_events|].
      intros _. split; [by apply quiet_events | simpl; lia].
    + destruct dry_run.
      * do 2 eexists. split; [by apply (genrule_file_dry_run p c)|].
        split_and!; [by eexists | by apply quiet_same_sources, quiet_events|].
        intros _. split; [by apply quiet_events | done].
      * do 2 eexists. split; [by apply (genrule_file_write p c)|].
        split_and!; [by eexists | by apply same_sources_write | done].
  - do 2 eexists. split; [by apply genrule_file_missing|].
    split_and!; [by eexists | by apply quiet_same_sources, quiet_events|].
    intros _. split; [by apply quiet_events | lia].
Qed.

Lemma would_patch_files (w w' : world) (p : string) :
  files w' = files w -> would_patch w' p = would_patch w p.
Proof. intros H. unfold would_patch. by rewrite H. Qed.

Lemma genrule_loop_total (paths : list string) (dry_run : bool) (n : nat) (w : world) :
  exists n' w',
    patch_genrule_loop timestamp paths dry_run n w = Some (n', w')
    /\ extends w w' /\ same_sources w w'
    /\ (dry_run = true ->
        quiet w w' /\ n' = n + length (List.filter (would_patch w) paths)).
Proof.
  revert n w. induction paths as [|p paths IH]; intros n w.
  - exists n, w. split_and!;
      [done | apply extends_refl | apply same_sources_refl |].
    intros _. split; [apply quiet_refl | simpl; lia].
  - destruct (genrule_file_total p dry_run n w) as (n1 & w1 & E1 & X1 & S1 & Q1).
    destruct (IH n1 w1) as (n2 & w2 & E2 & X2 & S2 & Q2).
    exists n2, w2. split_and!.
    + cbn [patch_genrule_loop]. rewrite run_bind, E1. exact E2.
    + by eapply extends_trans.
    + by eapply same_sources_trans.
    + intros ->. destruct (Q1 eq_refl) as [Qa ->]. destruct (Q2 eq_refl) as [Qb ->].
      split; [by eapply quiet_trans|].
      rewrite (filter_ext (would_patch w1) (would_patch w))
        by (intros q; apply would_patch_files, Qa).
      simpl. destruct (would_patch w p); simpl; lia.
Qed.

Lemma filter_nonempty_existsb {A : Type} (f : A -> bool) (l : list A) :
  (0 <? length (List.filter f l)) = existsb f l.
Proof.
  induction l as [|x l IH]; simpl; [done|].
  destruct (f x); simpl; [done | exact IH].
Qed.

Lemma genrule_pass_total (dry_run : bool) (w : world) :
  exists r w',
    patch_genrule_build_files timestamp dry_run w = Some (r, w')
    /\ extends w w' /\ same_sources w w'
    /\ (dry_run = true -> quiet w w' /\ r = existsb (would_patch w) genrule_files).
Proof.
  unfold patch_genrule_build_files. rewrite run_print.
  set (w0 := emit _ w).
  destruct (genrule_loop_total genrule_files dry_run 0 w0) as (n & w1 & E & X & S & Q).
  exists (0 <? n), w1. split_and!.
  - rewrite run_bind, E. done.
  - eapply extends_trans; [|exact X]. by eexists.
  - exact S.
  - intros Hd. destruct (Q Hd) as [Qa ->]. split.
    + eapply quiet_trans; [apply quiet_emit_print | exact Qa].
    + rewrite Nat.add_0_l, filter_nonempty_existsb. reflexivity.
Qed.

Lemma report_total (dry_run success : bool) (w : world) :
  exists w', report dry_run success w = Some (tt, w') /\ quiet w w'.
Proof.
  unfold report. destruct dry_run; [|destruct success]; run;
    (eexists; split; [reflexivity|]);
    repeat (eapply quiet_trans; [|apply quiet_emit_print]); apply quiet_refl.
Qed.

Ltac numbered_shape :=
  destruct numbered_steps_shape as (Eq1 & Eq2 & Eq3 & Eq4 & Eq5 & Eq6 & Eq7);
  rewrite ?Eq1, ?Eq2, ?Eq3, ?Eq4, ?Eq5, ?Eq6, ?Eq7;
  clear Eq1 Eq2 Eq3 Eq4 Eq5 Eq6 Eq7.

Ltac step_total w w' E L S Q :=
  rewrite run_bind;
  match goal with
  | |- context [patch_with timestamp ?l ?pt ?d ?r ?dm ?p ?dry w] =>
      destruct (patch_with_total l pt d r dm p dry w) as (w' & E & L & S & Q);
      rewrite E; cbv beta iota
  end.

Lemma same_sources_exists (w w' : world) (q : string) :
  same_sources w w' -> contains ".backup." q = false ->
  bool_decide (is_Some (files w' !! q)) = bool_decide (is_Some (files w !! q)).
Proof. intros H Hq. apply bool_decide_ext. by apply H. Qed.

Lemma header_logged (w w' w'' : world) (h : string) (evs : list event) :
  log w' = log w ++ Print h :: evs -> extends w' w'' -> Print h ∈ log w''.
Proof.
  intros L X. apply (extends_elem w' w'' _ X). rewrite L.
  apply elem_of_app. right. by left.
Qed.

(** [patch_all] runs the seven numbered steps whatever each one returns;
    its result is the conjunction of their results, and a step succeeds
    exactly when its file exists. *)
Lemma patch_all_total (dry_run skip_genrules : bool) (w : world) :
  exists w',
    patch_all timestamp dry_run skip_genrules w
    = Some (forallb (fun p => bool_decide (is_Some (files w !! p))) step_targets, w')
    /\ extends w w'
    /\ Forall (fun h => Print h ∈ log w') step_headers
    /\ (dry_run = true -> quiet w w').
Proof.
  unfold patch_all. numbered_shape.
  step_total w w1 E1 L1 S1 Q1.
  step_total w1 w2 E2 L2 S2 Q2.
  step_total w2 w3 E3 L3 S3 Q3.
  step_total w3 w4 E4 L4 S4 Q4.
  step_total w4 w5 E5 L5 S5 Q5.
  step_total w5 w6 E6 L6 S6 Q6.
  step_total w6 w7 E7 L7 S7 Q7.
  destruct L1 as [v1 L1], L2 as [v2 L2], L3 as [v3 L3], L4 as [v4 L4],
    L5 as [v5 L5], L6 as [v6 L6], L7 as [v7 L7].
  assert (extends w w1) as X1 by (by eexists).
  assert (extends w1 w2) as X2 by (by eexists).
  assert (extends w2 w3) as X3 by (by eexists).
  assert (extends w3 w4) as X4 by (by eexists).
  assert (extends w4 w5) as X5 by (by eexists).
  assert (extends w5 w6) as X6 by (by eexists).
  assert (extends w6 w7) as X7 by (by eexists).
  pose proof (same_sources_trans _ _ _ S1 S2) as T2.
  pose proof (same_sources_trans _ _ _ T2 S3) as T3.
  pose proof (same_sources_trans _ _ _ T3 S4) as T4.
  pose proof (same_sources_trans _ _ _ T4 S5) as T5.
  pose proof (same_sources_trans _ _ _ T5 S6) as T6.
  rewrite (same_sources_exists w w1 _ S1), (same_sources_exists w w2 _ T2),
    (same_sources_exists w w3 _ T3), (same_sources_exists w w4 _ T4),
    (same_sources_exists w w5 _ T5), (same_sources_exists w w6 _ T6) by reflexivity.
  assert (exists w8, (if negb skip_genrules
                      then patch_genrule_build_files timestamp dry_run;; mret ()
                      else mret ()) w7 = Some (tt, w8)
                     /\ extends w7 w8 /\ (dry_run = true -> quiet w7 w8))
    as (w8 & E8 & X8 & Q8).
  { destruct skip_genrules; cbn [negb].
    - exists w7. split_and!; [done | apply extends_refl | intros _; apply quiet_refl].
    - destruct (genrule_pass_total dry_run w7) as (r & w8 & E & X & _ & Q).
      exists w8. rewrite run_bind, E. split_and!; [done | done |].
      intros Hd. by destruct (Q Hd). }
  rewrite run_bind, E8. cbv beta iota. rewrite run_ret.
  exists w8. split_and!.
  - f_equal. f_equal. cbn [forallb step_targets].
    rewrite andb_true_l, andb_true_r, !andb_assoc. reflexivity.
  - repeat (eapply extends_trans; [eassumption|]). apply extends_refl.
  - repeat constructor.
    + eapply (header_logged w w1); [exact L1|].
      repeat (eapply extends_trans; [eassumption|]). apply extends_refl.
    + eapply (header_logged w1 w2); [exact L2|].
      repeat (eapply extends_trans; [eassumption|]). apply extends_refl.
    + eapply (header_logged w2 w3); [exact L3|].
      repeat (eapply extends_trans; [eassumption|]). apply extends_refl.
    + eapply (header_logged w3 w4); [exact L4|].
      repeat (eapply extends_trans; [eassumption|]). apply extends_refl.
    + eapply (header_logged w4 w5); [exact L5|].
      repeat (eapply extends_trans; [eassumption|]). apply extends_refl.
    + eapply (header_logged w5 w6); [exact L6|].
      repeat (eapply extends_trans; [eassumption|]). apply extends_refl.
    + eapply (header_logged w6 w7); [exact L7|].
      repeat (eapply extends_trans; [eassumption|]). apply extends_refl.
  - intros ->.
    eapply quiet_trans; [exact (Q1 eq_refl)|].
    eapply quiet_trans; [exact (Q2 eq_refl)|].
    eapply quiet_trans; [exact (Q3 eq_refl)|].
    eapply quiet_trans; [exact (Q4 eq_refl)|].
    eapply quiet_trans; [exact (Q5 eq_refl)|].
    eapply quiet_trans; [exact (Q6 eq_refl)|].
    eapply quiet_trans; [exact (Q7 eq_refl)|].
    exact (Q8 eq_refl).
Qed.

Lemma main_total (dry_run skip_genrules : bool) (w : world) :
  (files w !! "build-system/BUILD" = None ->
   exists evs,
     main timestamp dry_run skip_genrules w
     = Some (1, World (files w)
                  (log w ++ evs
                   ++ [Print "ERROR: This script must be run from the Telegram-iOS root directory.";
                       Print "       Could not find build-system/BUILD"]))
     /\ Forall (fun h => Print h ∉ evs) step_headers
     /\ Forall (fun e => mutates e = false) evs)
  /\ (is_Some (files w !! "build-system/BUILD") ->
      exists w',
        main timestamp dry_run skip_genrules w = Some (0, w')
        /\ Forall (fun h => Print h ∈ log w') step_headers
        /\ (dry_run = true -> quiet w w')).
Proof.
  split.
  - intros H. unfold main. run.
    assert (forall w0 : world, files w0 = files w ->
              bool_decide (is_Some (files w0 !! "build-system/BUILD")) = false) as Hex
      by (intros w0 ->; by apply exists_false).
    destruct dry_run; run; rewrite Hex by done; cbn [negb]; run.
    + exists [Print (str_mul "=" 60); Print "Telegram-iOS Intel x86_64 Support Patch";
              Print (str_mul "=" 60);
              Print (nl +:+ "*** DRY RUN MODE - No files will be modified ***" +:+ nl)].
      split_and!; [finish_world | | by repeat constructor].
      repeat constructor; intros Hin;
        repeat (apply elem_of_cons in Hin as [Hin|Hin]; [discriminate Hin|]);
        by apply elem_of_nil in Hin.
    + exists [Print (str_mul "=" 60); Print "Telegram-iOS Intel x86_64 Support Patch";
              Print (str_mul "=" 60)].
      split_and!; [finish_world | | by repeat constructor].
      repeat constructor; intros Hin;
        repeat (apply elem_of_cons in Hin as [Hin|Hin]; [discriminate Hin|]);
        by apply elem_of_nil in Hin.
  - intros [c H]. unfold main. run.
    set (w0 := (if dry_run
                then emit (Print (nl +:+ "*** DRY RUN MODE - No files will be modified ***" +:+ nl))
                else fun w => w)
                 (emit (Print (str_mul "=" 60))
                    (emit (Print "Telegram-iOS Intel x86_64 Support Patch")
                       (emit (Print (str_mul "=" 60)) w)))).
    assert (quiet w w0) as Q0.
    { unfold w0. destruct dry_run;
        repeat (eapply quiet_trans; [|apply quiet_emit_print]); apply quiet_refl. }
    destruct (patch_all_total dry_run skip_genrules w0) as (w1 & E1 & X1 & Hh & Q1).
    destruct (report_total dry_run
                (forallb (fun p => bool_decide (is_Some (files w0 !! p))) step_targets) w1)
      as (w2 & E2 & Q2).
    exists w2. split_and!.
    + assert (files w0 !! "build-system/BUILD" = Some c) as H0
        by (destruct Q0 as [-> _]; done).
      unfold w0 in *. destruct dry_run; run;
        rewrite (exists_true _ c) by done; cbn [negb];
        rewrite run_bind, E1; cbv beta iota; rewrite run_bind, E2; done.
    + eapply Forall_impl; [exact Hh|]. intros h Hin. cbv beta in *.
      by apply (extends_elem w1 w2 _ (quiet_extends _ _ Q2)).
    + intros Hd. eapply quiet_trans; [exact Q0|].
      eapply quiet_trans; [exact (Q1 Hd) | exact Q2].
Qed.

(** ** Properties of the file operations *)

Ltac each_step tac :=
  unfold numbered_steps;
  repeat (apply List.Forall_cons; [cbn [step_run step_patched]; tac|]);
  apply List.Forall_nil.

(** C5: without a marker line the scan returns its input and
    [modified] stays false; the content is left as it was read, the
    caller writes it back, prints "No changes needed or pattern not
    found" and does not count the file; and the per-file step always
    returns, it never raises. *)
Theorem no_marker_line_changes_nothing :
  (forall lines, Forall (fun l => is_marker l = false) lines ->
     duplicate_blocks lines = (lines, false))
  /\ (forall content, Forall (fun l => is_marker l = false) (split NL content) ->
        patch_genrule_content content = (content, false))
  /\ (forall p c n w,
        files w !! p = Some c -> contains "ios_x86_64" c = false ->
        Forall (fun l => is_marker l = false) (split NL (universal_newlines c)) ->
        patch_genrule_file timestamp p false n w
        = Some (n, World (<[p := universal_newlines c]>
                            (<[backup_path timestamp p := c]> (files w)))
                     (log w ++ [ReadFile p;
                                Copy2 p (backup_path timestamp p);
                                Print ("  Backup created: " +:+ backup_path timestamp p);
                                WriteFile p (universal_newlines c);
                                Print ("  " +:+ p +:+ ": No changes needed or pattern not found")])))
  /\ (forall p dry_run n w, is_Some (patch_genrule_file timestamp p dry_run n w)).
Proof.
  assert (forall content, Forall (fun l => is_marker l = false) (split NL content) ->
            patch_genrule_content content = (content, false)) as Hcontent.
  { intros content Hno. unfold patch_genrule_content.
    by rewrite no_marker_line_no_marker. }
  split_and!.
  - intros lines Hno. unfold duplicate_blocks. by apply scan_no_marker.
  - exact Hcontent.
  - intros p c n w H Hc Hno. rewrite <- (ios_x86_64_newlines c) in Hc.
    rewrite (genrule_file_write p c) by done.
    by rewrite Hcontent.
  - intros p dry_run n w.
    destruct (genrule_file_total p dry_run n w) as (n' & w' & E & _). by rewrite E.
Qed.

(** C6: a numbered patch function whose file already contains its
    marker text returns True, and the genrule step on a file that
    already contains [ios_x86_64] leaves the count as it is; in both
    cases the files are unchanged, nothing is copied or written, and
    "Already patched, skipping." is printed. *)
Theorem already_patched_is_noop (w : world) (p c : string) (dry_run : bool) :
  files w !! p = Some c ->
  Forall (fun s =>
            contains (step_patched s) c = true ->
            exists evs,
              step_run s p dry_run w = Some (true, World (files w) (log w ++ evs))
              /\ Forall (fun e => mutates e = false) evs
              /\ Print "  Already patched, skipping." ∈ evs)
         (numbered_steps timestamp)
  /\ (contains "ios_x86_64" c = true ->
      forall n, exists evs,
        patch_genrule_file timestamp p dry_run n w
        = Some (n, World (files w) (log w ++ evs))
        /\ Forall (fun e => mutates e = false) evs
        /\ Print ("  " +:+ p +:+ ": Already patched, skipping.") ∈ evs).
Proof.
  intros H. split.
  - each_step ltac:(
      intros Hc;
      first [ rewrite <- (ios_sim_x86_64_newlines c) in Hc
            | rewrite <- (debug_sim_x86_64_newlines c) in Hc ];
      numbered_shape;
      (eexists; split; [by apply (patch_with_already _ _ _ _ _ p c)|]);
      (split; [by repeat constructor | set_solver])).
  - intros Hc n. rewrite <- (ios_x86_64_newlines c) in Hc.
    eexists. split; [by apply (genrule_file_already p c)|].
    split; [by repeat constructor | set_solver].
Qed.

(** C7, as amended: with the dry-run flag no patch function and no run
    of [main] copies or writes a file, every file keeps its content; a
    numbered step returns the boolean it returns without the flag; the
    genrule pass returns True exactly when one of its files exists and
    does not contain [ios_x86_64]. *)
Theorem dry_run_changes_no_file (w : world) :
  Forall (fun s => forall p, exists r w',
            step_run s p true w = Some (r, w') /\ quiet w w'
            /\ exists w'', step_run s p false w = Some (r, w''))
         (numbered_steps timestamp)
  /\ (exists w',
        patch_genrule_build_files timestamp true w
        = Some (existsb (would_patch w) genrule_files, w')
        /\ quiet w w')
  /\ (forall skip_genrules, exists code w',
        main timestamp true skip_genrules w = Some (code, w') /\ quiet w w').
Proof.
  split_and!.
  - each_step ltac:(
      intros p; numbered_shape;
      match goal with
      | |- context [patch_with timestamp ?l ?pt ?d ?r ?dm p true w] =>
          destruct (patch_with_total l pt d r dm p true w) as (w1 & E1 & _ & _ & Q1);
          destruct (patch_with_total l pt d r dm p false w) as (w2 & E2 & _)
      end; eauto 10).
  - destruct (genrule_pass_total true w) as (r & w' & E & _ & _ & Q).
    destruct (Q eq_refl) as [Qa ->]. eauto.
  - intros skip. destruct (main_total true skip w) as [Hno Hyes].
    destruct (files w !! "build-system/BUILD") as [c|] eqn:H.
    + destruct Hyes as (w' & E & _ & Q); eauto.
    + destruct (Hno eq_refl) as (evs & E & _ & Hq). do 2 eexists. split; [exact E|].
      split; [done|]. eexists. split; [done|].
      apply Forall_app. split; [done | by repeat constructor].
Qed.


(** ** Insertion only *)

Lemma concat_empty_cons (x : string) (l : list string) :
  String.concat "" (x :: l) = x +:+ String.concat "" l.
Proof. destruct l; simpl; [by rewrite app_empty_r | done]. Qed.

Lemma concat_empty_app (l1 l2 : list string) :
  String.concat "" (l1 ++ l2) = String.concat "" l1 +:+ String.concat "" l2.
Proof.
  induction l1 as [|x l1 IH]; [done|].
  rewrite <- app_comm_cons, !concat_empty_cons, IH. by rewrite app_assoc_s.
Qed.

(** What a match consumes and what it leaves make up the text. *)
Lemma star_sound {R : Type} (cls : ascii -> bool) (k : string -> option R)
    (s p : string) (m : R) :
  Re.star cls k s = Some (p, m) -> exists s', s = p +:+ s' /\ k s' = Some m.
Proof.
  revert p. induction s as [|c s IH]; intros p; simpl.
  - destruct (k "") eqn:E; [|done]. intros [= <- <-]. by exists "".
  - assert (match k (String c s) with Some m0 => Some ("", m0) | None => None end
            = Some (p, m) -> exists s', String c s = p +:+ s' /\ k s' = Some m) as Hstop.
    { destruct (k (String c s)) eqn:E; [|done]. intros [= <- <-]. by exists (String c s). }
    destruct (cls c); [|done].
    destruct (Re.star cls k s) as [[p' m']|] eqn:E; [|done].
    intros [= <- <-]. destruct (IH p' eq_refl) as (s' & -> & Hk). by exists s'.
Qed.

Lemma match_here_sound (rs : list Re.atom) (s : string) (ps : list string) (r : string) :
  Re.match_here rs s = Some (ps, r) ->
  s = String.concat "" ps +:+ r /\ length ps = length rs.
Proof.
  revert s ps r. induction rs as [|[l|cls] rs IH]; intros s ps r; simpl.
  - by intros [= <- <-].
  - destruct (strip_prefix l s) as [s'|] eqn:E; [|done].
    destruct (Re.match_here rs s') as [[ps' r']|] eqn:E'; [|done].
    intros [= <- <-]. apply strip_prefix_Some in E as ->.
    destruct (IH _ _ _ E') as [-> Hlen].
    split; [by rewrite concat_empty_cons, app_assoc_s | simpl; by rewrite Hlen].
  - destruct (Re.star cls (Re.match_here rs) s) as [[p [ps' r']]|] eqn:E; [|done].
    intros [= <- <-]. apply star_sound in E as (s' & -> & E').
    destruct (IH _ _ _ E') as [-> Hlen].
    split; [by rewrite concat_empty_cons, app_assoc_s | simpl; by rewrite Hlen].
Qed.

Lemma match_two_groups (g1 g2 : list Re.atom) (s : string) (gs : list string) (r : string) :
  Re.match_groups [g1; g2] s = Some (gs, r) ->
  exists a b, gs = [a; b] /\ s = a +:+ b +:+ r.
Proof.
  unfold Re.match_groups.
  destruct (Re.match_here (concat [g1; g2]) s) as [[ps r']|] eqn:E; [|done].
  intros [= <- <-]. apply match_here_sound in E as [-> Hlen].
  simpl in Hlen. rewrite app_nil_r, length_app in Hlen.
  exists (String.concat "" (take (length g1) ps)),
         (String.concat "" (take (length g2) (drop (length g1) ps))).
  split; [done|].
  rewrite <- app_assoc_s, <- concat_empty_app. f_equal. f_equal.
  rewrite (take_ge (drop _ _)) by (rewrite length_drop; lia).
  by rewrite take_drop.
Qed.

(** [re.sub] with a template [\1 text \2] over a pattern of two groups
    only inserts the text. *)
Lemma sub_go_subtext (g1 g2 : list Re.atom) (mid : string) (fuel : nat) (s : string) :
  subtext s (Re.sub_go fuel [g1; g2] [Re.Group 1; Re.Text mid; Re.Group 2] s).
Proof.
  revert s. induction fuel as [|f IH]; intros s; [apply subtext_refl|].
  cbn [Re.sub_go].
  assert (subtext s match s with
                    | "" => ""
                    | String c s' =>
                        String c (Re.sub_go f [g1; g2] [Re.Group 1; Re.Text mid; Re.Group 2] s')
                    end) as Hcopy.
  { destruct s; [apply subtext_refl | by apply subtext_cons]. }
  destruct (Re.match_groups [g1; g2] s) as [[gs r]|] eqn:E; [|done].
  destruct (String.length r <? String.length s).
  - apply match_two_groups in E as (a & b & -> & ->). clear Hcopy.
    cbn [Re.expand nth Nat.sub]. rewrite app_empty_r, !app_assoc_s.
    apply subtext_app; [apply subtext_refl|].
    apply subtext_insert_l.
    apply subtext_app; [apply subtext_refl|]. apply IH.
  - by apply subtext_insert_l.
Qed.

Lemma sub_subtext (g1 g2 : list Re.atom) (mid : string) (s : string) :
  subtext s (Re.sub [g1; g2] [Re.Group 1; Re.Text mid; Re.Group 2] s).
Proof. apply sub_go_subtext. Qed.

Lemma webrtc_content_subtext (c : string) : subtext c (webrtc_content c).
Proof.
  unfold webrtc_content. eapply subtext_trans; apply replace_subtext;
    apply subtextb_sound; vm_compute; reflexivity.
Qed.

Lemma make_py_content_subtext (c : string) : subtext c (make_py_content c).
Proof.
  unfold make_py_content. eapply subtext_trans; apply replace_subtext;
    apply subtextb_sound; vm_compute; reflexivity.
Qed.

Lemma libyuv_content_subtext (c : string) : subtext c (libyuv_content c).
Proof. apply sub_subtext. Qed.

Lemma openh264_content_subtext (c : string) : subtext c (openh264_content c).
Proof.
  unfold openh264_content.
  eapply subtext_trans; [|apply sub_subtext].
  eapply subtext_trans; [|apply sub_subtext]. apply sub_subtext.
Qed.

Lemma libsrtp_content_subtext (c : string) : subtext c (libsrtp_content c).
Proof. apply sub_subtext. Qed.

Lemma crc32c_content_subtext (c : string) : subtext c (crc32c_content c).
Proof. apply sub_subtext. Qed.

Lemma genrule_content_subtext (c : string) : subtext c (patch_genrule_content c).1.
Proof.
  unfold patch_genrule_content. destruct (contains sim_arm64_marker c); [|apply subtext_refl].
  destruct (scan_keeps_lines (length (split NL c)) (split NL c) false) as [Hs _]; [done|].
  fold (duplicate_blocks (split NL c)) in Hs.
  destruct (duplicate_blocks (split NL c)) as [new_lines [|]]; [|apply subtext_refl].
  simpl in *. rewrite <- (join_split c) at 1. by apply join_sublist.
Qed.

Lemma patch_with_content (label patched dry_msg : string) (rewrite : string -> string)
    (done_msg : string) (p c : string) (dry_run : bool) (w : world) :
  files w !! p = Some c ->
  exists r w' c',
    patch_with timestamp label patched dry_msg rewrite done_msg p dry_run w = Some (r, w')
    /\ files w' !! p = Some c'
    /\ (c' = c \/ c' = rewrite (universal_newlines c)).
Proof.
  intros H. destruct (contains patched (universal_newlines c)) eqn:Hc; [|destruct dry_run].
  - do 3 eexists. split; [by apply (patch_with_already _ _ _ _ _ p c)|]. eauto.
  - do 3 eexists. split; [by apply (patch_with_dry_run _ _ _ _ _ p c)|]. eauto.
  - do 3 eexists. split; [by apply (patch_with_write _ _ _ _ _ p c)|].
    cbn [files]. rewrite lookup_insert_eq. eauto.
Qed.

(** C3, as amended: every patch step other than the first only inserts
    text: it either leaves its file as it is or writes content that
    contains, in order, the whole content it read (the file's text with
    its newlines translated by the text-mode read); the first step, on
    a [build-system/BUILD] it patches, replaces the whole content by
    its fixed text. *)
Theorem patches_after_first_only_insert (w : world) (p c : string) (dry_run : bool) :
  files w !! p = Some c ->
  Forall (fun s =>
            (forall content, subtext content (step_rewrite s content))
            /\ exists r w' c',
                 step_run s p dry_run w = Some (r, w')
                 /\ files w' !! p = Some c'
                 /\ (c' = c \/ subtext (universal_newlines c) c'))
         (tail (numbered_steps timestamp))
  /\ (forall n, exists n' w' c',
        patch_genrule_file timestamp p dry_run n w = Some (n', w')
        /\ files w' !! p = Some c'
        /\ (c' = c \/ subtext (universal_newlines c) c'))
  /\ (contains "ios_sim_x86_64" c = false ->
      exists w',
        patch_build_system_build timestamp p false w = Some (true, w')
        /\ files w' !! p = Some new_config_settings).
Proof.
  intros H. split_and!.
  - unfold numbered_steps. cbn [tail].
    repeat (apply List.Forall_cons;
            [cbn [step_run step_rewrite]; numbered_shape;
             match goal with
             | |- (forall content, subtext content (?f content)) /\ _ =>
                 assert (forall content, subtext content (f content)) as Hins
             end;
             [first [ exact webrtc_content_subtext | exact libyuv_content_subtext
                    | exact openh264_content_subtext | exact libsrtp_content_subtext
                    | exact crc32c_content_subtext | exact make_py_content_subtext ]
             | split; [exact Hins|];
               match goal with
               | |- context [patch_with timestamp ?l ?pt ?d ?r ?dm p dry_run w] =>
                   destruct (patch_with_content l pt d r dm p c dry_run w H)
                     as (r0 & w' & c' & E & Hf & [->| ->])
               end; eauto 10 ]
            |]).
    apply List.Forall_nil.
  - intros n. destruct (contains "ios_x86_64" (universal_newlines c)) eqn:Hc;
      [|destruct dry_run].
    + do 3 eexists. split; [by apply (genrule_file_already p c)|]. eauto.
    + do 3 eexists. split; [by apply (genrule_file_dry_run p c)|]. eauto.
    + do 3 eexists. split; [by apply (genrule_file_write p c)|].
      cbn [files]. rewrite lookup_insert_eq. split; [done|].
      right. apply genrule_content_subtext.
  - intros Hc. rewrite <- (ios_sim_x86_64_newlines c) in Hc.
    destruct numbered_steps_shape as [-> _].
    eexists. split; [by apply (patch_with_write _ _ _ _ _ p c)|].
    cbn [files]. by rewrite lookup_insert_eq.
Qed.

(** ** More on [in] and [str.replace] *)

Lemma prefix_strip_prefix (p s : string) :
  String.prefix p s = match strip_prefix p s with Some _ => true | None => false end.
Proof.
  revert s. induction p as [|a p IH]; intros [|b s]; simpl; try done.
  destruct (ascii_dec a b) as [->|Hne].
  - rewrite Ascii.eqb_refl. apply IH.
  - by destruct (Ascii.eqb_spec a b).
Qed.

Lemma prefix_false_strip (p s : string) :
  String.prefix p s = false -> strip_prefix p s = None.
Proof. rewrite prefix_strip_prefix. by destruct (strip_prefix p s). Qed.

Lemma prefix_true_strip (p s : string) :
  String.prefix p s = true -> exists r, s = p +:+ r.
Proof.
  rewrite prefix_strip_prefix. destruct (strip_prefix p s) as [r|] eqn:E; [|done].
  intros _. exists r. by apply strip_prefix_Some.
Qed.

Lemma prefix_app_l (sub a b : string) :
  String.prefix sub a = true -> String.prefix sub (a +:+ b) = true.
Proof.
  intros (r & ->)%prefix_true_strip. rewrite app_assoc_s. apply prefix_app.
Qed.

Lemma contains_app_l (sub a b : string) :
  contains sub a = true -> contains sub (a +:+ b) = true.
Proof.
  induction a as [|c a IH]; intros H.
  - simpl in H. rewrite orb_false_r in H. apply prefix_contains.
    by apply (prefix_app_l sub "" b).
  - rewrite contains_unfold in H. apply orb_true_iff in H as [H|H].
    + apply prefix_contains. by apply prefix_app_l.
    + change (String c a +:+ b) with (String c (a +:+ b)). by apply contains_cons, IH.
Qed.

Lemma contains_app_r (sub a b : string) :
  contains sub b = true -> contains sub (a +:+ b) = true.
Proof.
  intros H. induction a as [|c a IH]; [done|].
  change (String c a +:+ b) with (String c (a +:+ b)). by apply contains_cons.
Qed.

Lemma replace_nil (old new : string) : old <> "" -> replace old new "" = "".
Proof. intros H. unfold replace. by destruct old. Qed.

(** [str.replace] returns the text itself when the old text is not in it. *)
Lemma replace_absent (old new s : string) :
  old <> "" -> contains old s = false -> replace old new s = s.
Proof.
  intros Hold. induction s as [|c s IH]; intros H; [by apply replace_nil|].
  rewrite contains_unfold in H. apply orb_false_iff in H as [H1 H2].
  rewrite replace_skip by (done || by apply prefix_false_strip). by rewrite IH.
Qed.

(** When the old text is in it, the result holds the new text, and so
    anything inside the new text. *)
Lemma replace_present (old new mk s : string) :
  old <> "" -> contains mk new = true -> contains old s = true ->
  contains mk (replace old new s) = true.
Proof.
  intros Hold Hmk. induction s as [|c s IH]; intros H.
  - simpl in H. rewrite orb_false_r in H. by destruct old.
  - destruct (String.prefix old (String c s)) eqn:E.
    + apply prefix_true_strip in E as (r & ->).
      rewrite replace_match by done. by apply contains_app_l.
    + rewrite contains_unfold, E in H. simpl in H.
      rewrite replace_skip by (done || by apply prefix_false_strip).
      by apply contains_cons, IH.
Qed.

Lemma replace_same_or_marked (old new mk s : string) :
  old <> "" -> contains mk new = true ->
  replace old new s = s \/ contains mk (replace old new s) = true.
Proof.
  intros Hold Hmk. destruct (contains old s) eqn:E.
  - right. by apply replace_present.
  - left. by apply replace_absent.
Qed.

(** The result of [str.replace] starts with a text free of the first
    character of [new] only if the input does. *)
Lemma replace_prefix_inv (old new' p : string) (x : ascii) :
  old <> "" -> x ∉ chars p ->
  forall s, String.prefix p (replace old (String x new') s) = true ->
            String.prefix p s = true.
Proof.
  intros Hold. induction p as [|a p IH]; intros Hx s H.
  - by destruct s.
  - simpl in Hx. apply not_elem_of_cons in Hx as [Hxa Hxp].
    destruct s as [|c s]; [by rewrite replace_nil in H|].
    destruct (String.prefix old (String c s)) eqn:E.
    + apply prefix_true_strip in E as (r & E). rewrite E in H.
      rewrite replace_match in H by done. simpl in H.
      by destruct (ascii_dec a x) as [->|].
    + rewrite replace_skip in H by (done || by apply prefix_false_strip).
      simpl in *. destruct (ascii_dec a c); [|done]. by apply IH.
Qed.

Lemma contains_skip_chars (p' n o : string) (a : ascii) :
  a ∉ chars n -> contains (String a p') (n +:+ o) = contains (String a p') o.
Proof.
  induction n as [|c n IH]; intros Ha; [done|].
  simpl in Ha. apply not_elem_of_cons in Ha as [Hac Hn].
  change (String c n +:+ o) with (String c (n +:+ o)).
  rewrite contains_unfold, IH by done. simpl.
  by destruct (ascii_dec a c).
Qed.

Lemma strong_string_ind (P : string -> Prop) :
  (forall s, (forall r, String.length r < String.length s -> P r) -> P s) ->
  forall s, P s.
Proof.
  intros H s. remember (String.length s) as n eqn:Hn.
  revert s Hn. induction n as [n IH] using lt_wf_ind. intros s ->.
  apply H. intros r Hr. by apply (IH (String.length r)).
Qed.

(** A text that does not start with a character of [new], and does not
    hold the first character of [new], occurs in the result only where
    it occurs in the input. *)
Lemma replace_no_new_occurrence (old new' p' : string) (x a : ascii) :
  old <> "" -> a ∉ chars (String x new') -> x ∉ chars (String a p') ->
  forall s, contains (String a p') (replace old (String x new') s) = true ->
            contains (String a p') s = true.
Proof.
  intros Hold Ha Hx. induction s as [s IH] using strong_string_ind. intros H.
  destruct s as [|c s].
  - by rewrite replace_nil in H.
  - destruct (String.prefix old (String c s)) eqn:E.
    + apply prefix_true_strip in E as (r & E). rewrite E in *.
      rewrite replace_match, contains_skip_chars in H by done.
      apply contains_app_r, IH; [|done].
      rewrite length_app_s. destruct old; [done | simpl; lia].
    + rewrite replace_skip in H by (done || by apply prefix_false_strip).
      rewrite contains_unfold in H. apply orb_true_iff in H as [H|H].
      * apply prefix_contains.
        apply (replace_prefix_inv old new' (String a p') x Hold Hx (String c s)).
        by rewrite replace_skip by (done || by apply prefix_false_strip).
      * apply contains_cons, IH; [simpl; lia | done].
Qed.

(** No occurrence of the old text is left, when the new text does not
    hold its first character and it does not hold the first character of
    the new text. *)
Lemma replace_leaves_none (old' new' : string) (x a : ascii) :
  a ∉ chars (String x new') -> x ∉ chars (String a old') ->
  forall s, contains (String a old') (replace (String a old') (String x new') s) = false.
Proof.
  intros Ha Hx. induction s as [s IH] using strong_string_ind.
  destruct s as [|c s]; [done|].
  destruct (String.prefix (String a old') (String c s)) eqn:E.
  - apply prefix_true_strip in E as (r & E). rewrite E.
    rewrite replace_match, contains_skip_chars by done.
    apply IH. rewrite E, length_app_s. simpl. lia.
  - rewrite replace_skip by (done || by apply prefix_false_strip).
    rewrite contains_unfold. apply orb_false_iff. split.
    + destruct (String.prefix (String a old')
                  (String c (replace (String a old') (String x new') s))) eqn:E'; [|done].
      rewrite <- replace_skip in E' by (done || by apply prefix_false_strip).
      apply replace_prefix_inv in E'; [congruence | done | done].
    + apply IH. simpl. lia.
Qed.

(** X4: a rewritten body line holds neither [arm64] nor [aarch64]. *)
Theorem modified_line_has_no_arm_token (bl : string) :
  contains "arm64" (modified_line bl) = false
  /\ contains "aarch64" (modified_line bl) = false.
Proof.
  unfold modified_line. split.
  - apply replace_leaves_none; vm_compute; intros H;
      repeat (apply elem_of_cons in H as [H|H]; [discriminate H|]);
      by apply elem_of_nil in H.
  - destruct (contains "aarch64"
                (replace "arm64" "x86_64" (replace "aarch64" "x86_64" bl))) eqn:E; [|done].
    apply replace_no_new_occurrence in E.
    + rewrite replace_leaves_none in E; [done | |]; vm_compute; intros H;
        repeat (apply elem_of_cons in H as [H|H]; [discriminate H|]);
        by apply elem_of_nil in H.
    + done.
    + vm_compute; intros H;
        repeat (apply elem_of_cons in H as [H|H]; [discriminate H|]);
        by apply elem_of_nil in H.
    + vm_compute; intros H;
        repeat (apply elem_of_cons in H as [H|H]; [discriminate H|]);
        by apply elem_of_nil in H.
Qed.

(** ** More on [re.sub] *)

Lemma match_groups_starts_with (l : string) (g1 : list Re.atom) (gs : list (list Re.atom))
    (s : string) :
  String.prefix l s = false -> Re.match_groups ((Re.Lit l :: g1) :: gs) s = None.
Proof.
  intros H. unfold Re.match_groups. simpl. by rewrite (prefix_false_strip l s H).
Qed.

(** [re.sub] returns the text itself when the literal that the pattern
    starts with is not in it. *)
Lemma sub_go_absent (l : string) (g1 : list Re.atom) (gs : list (list Re.atom))
    (t : Re.template) (fuel : nat) (s : string) :
  contains l s = false -> Re.sub_go fuel ((Re.Lit l :: g1) :: gs) t s = s.
Proof.
  revert s. induction fuel as [|f IH]; intros s H; [done|].
  cbn [Re.sub_go]. destruct s as [|c s].
  - simpl in H. rewrite orb_false_r in H. by rewrite match_groups_starts_with.
  - rewrite contains_unfold in H. apply orb_false_iff in H as [H1 H2].
    rewrite match_groups_starts_with by done. by rewrite IH.
Qed.

Lemma sub_absent (l : string) (g1 : list Re.atom) (gs : list (list Re.atom))
    (t : Re.template) (s : string) :
  contains l s = false -> Re.sub ((Re.Lit l :: g1) :: gs) t s = s.
Proof. apply sub_go_absent. Qed.

(** With a template [\1 text \2], [re.sub] either returns the text
    itself or a text that holds the inserted text. *)
Lemma sub_go_same_or_marked (g1 g2 : list Re.atom) (mid mk : string) (fuel : nat) (s : string) :
  contains mk mid = true ->
  Re.sub_go fuel [g1; g2] [Re.Group 1; Re.Text mid; Re.Group 2] s = s
  \/ contains mk (Re.sub_go fuel [g1; g2] [Re.Group 1; Re.Text mid; Re.Group 2] s) = true.
Proof.
  intros Hmk. revert s. induction fuel as [|f IH]; intros s; [by left|].
  cbn [Re.sub_go].
  assert (match s with
          | "" => ""
          | String c s' =>
              String c (Re.sub_go f [g1; g2] [Re.Group 1; Re.Text mid; Re.Group 2] s')
          end = s
          \/ contains mk match s with
                         | "" => ""
                         | String c s' =>
                             String c (Re.sub_go f [g1; g2]
                                         [Re.Group 1; Re.Text mid; Re.Group 2] s')
                         end = true) as Hcopy.
  { destruct s as [|c s]; [by left|].
    destruct (IH s) as [->|H]; [by left | right; by apply contains_cons]. }
  destruct (Re.match_groups [g1; g2] s) as [[gs r]|] eqn:E; [|done].
  right. apply match_two_groups in E as (a & b & -> & _).
  cbn [Re.expand nth Nat.sub].
  destruct (String.length r <? String.length s);
    apply contains_app_l, contains_app_r, contains_app_l; exact Hmk.
Qed.

Lemma sub_same_or_marked (g1 g2 : list Re.atom) (mid mk : string) (s : string) :
  contains mk mid = true ->
  Re.sub [g1; g2] [Re.Group 1; Re.Text mid; Re.Group 2] s = s
  \/ contains mk (Re.sub [g1; g2] [Re.Group 1; Re.Text mid; Re.Group 2] s) = true.
Proof. apply sub_go_same_or_marked. Qed.

(** ** What each rewrite does to the already-patched test *)

Lemma rewrites_same_or_marked :
  Forall (fun s => forall c,
            step_rewrite s c = c
            \/ contains (step_patched s) (step_rewrite s c) = true)
         (numbered_steps timestamp).
Proof.
  assert (forall (f g : string -> string) (mk : string),
            (forall c, f c = c \/ contains mk (f c) = true) ->
            (forall c, g c = c \/ contains mk (g c) = true) ->
            forall c, g (f c) = c \/ contains mk (g (f c)) = true) as Hcomp.
  { intros f g mk Hf Hg c. destruct (Hg (f c)) as [->|H]; [apply Hf | by right]. }
  unfold numbered_steps.
  repeat (apply List.Forall_cons; [cbn [step_rewrite step_patched]|]);
    [| | | | | | | apply List.Forall_nil].
  - intros c. by right.
  - apply (Hcomp (replace old_arch_specific_sources new_arch_specific_sources)
             (replace old_arch_specific_cflags new_arch_specific_cflags));
      intros c; by apply replace_same_or_marked.
  - intros c. by apply sub_same_or_marked.
  - apply (Hcomp (fun c => Re.sub (openh264_pattern "arm64_specific_copts") empty_template
                             (Re.sub (openh264_pattern "arm64_specific_sources")
                                empty_template c))
             (Re.sub (openh264_pattern "arm64_specific_textual_hdrs") empty_template)).
    + apply (Hcomp (Re.sub (openh264_pattern "arm64_specific_sources") empty_template)
               (Re.sub (openh264_pattern "arm64_specific_copts") empty_template));
        intros c; by apply sub_same_or_marked.
    + intros c. by apply sub_same_or_marked.
  - intros c. by apply sub_same_or_marked.
  - intros c. by apply sub_same_or_marked.
  - apply (Hcomp (replace old_release_arm64 new_configurations)
             (replace old_choices new_choices));
      intros c; by apply replace_same_or_marked.
Qed.

(** ** More on the block duplicator *)

Lemma first_marker_split (lines : list string) :
  Exists (fun l => is_marker l = true) lines ->
  exists pre m rest,
    lines = pre ++ m :: rest
    /\ Forall (fun l => is_marker l = false) pre /\ is_marker m = true.
Proof.
  induction lines as [|l lines IH]; intros H; [by apply Exists_nil in H|].
  destruct (is_marker l) eqn:E.
  - exists [], l, lines. done.
  - apply Exists_cons in H as [H|H]; [congruence|].
    destruct (IH H) as (pre & m & rest & -> & Hpre & Hm).
    exists (l :: pre), m, rest. split_and!; [done | by constructor | done].
Qed.

Lemma contains_join (sub sep l : string) (ls : list string) :
  l ∈ ls -> contains sub l = true -> contains sub (join sep ls) = true.
Proof.
  intros Hin Hl. induction ls as [|x ls IH]; [by apply elem_of_nil in Hin|].
  destruct ls as [|y ls].
  - apply list_elem_of_singleton in Hin as ->. done.
  - rewrite join_cons_cons. apply elem_of_cons in Hin as [->|Hin].
    + by apply contains_app_l.
    + by apply contains_app_r, contains_app_r, IH.
Qed.

(** ** Marker lines that end a block *)

Lemma rstrip_keeps_prefix (a : string) (c : ascii) (t : string) :
  isspace c = false -> exists r, rstrip (a +:+ String c t) = a +:+ String c r.
Proof.
  intros Hc. induction a as [|x a [r IH]].
  - change ("" +:+ String c t) with (String c t). simpl.
    destruct (rstrip t) as [|y r]; [rewrite Hc; by exists "" | by exists (String y r)].
  - change (String x a +:+ String c t) with (String x (a +:+ String c t)).
    exists r. simpl. rewrite IH. by destruct a.
Qed.

Lemma lstrip_spaces (ws s : string) :
  Forall (fun c => isspace c = true) (chars ws) -> lstrip (ws +:+ s) = lstrip s.
Proof.
  induction ws as [|c ws IH]; intros H; [done|].
  simpl in H. inversion H as [|? ? Hc Hws]; subst.
  change (String c ws +:+ s) with (String c (ws +:+ s)). simpl. rewrite Hc. by apply IH.
Qed.

(** A line made of whitespace, the marker text and anything after it
    both starts a block and ends the block before it. *)
Lemma indented_marker_is_terminator (ws tail : string) :
  Forall (fun c => isspace c = true) (chars ws) ->
  is_marker (ws +:+ sim_arm64_marker +:+ tail) = true
  /\ is_terminator (ws +:+ sim_arm64_marker +:+ tail) = true.
Proof.
  intros Hws. split; [apply contains_app|].
  unfold is_terminator, strip. rewrite lstrip_spaces by done.
  change (lstrip (sim_arm64_marker +:+ tail))
    with ("elif " +:+ String "[" (String " " (dq +:+ "$(TARGET_CPU)" +:+ dq +:+ " == " +:+ dq
                                   +:+ "ios_sim_arm64" +:+ dq +:+ " ]; then" +:+ tail))).
  destruct (rstrip_keeps_prefix "elif " "["
              (String " " (dq +:+ "$(TARGET_CPU)" +:+ dq +:+ " == " +:+ dq
                           +:+ "ios_sim_arm64" +:+ dq +:+ " ]; then" +:+ tail)) eq_refl)
    as [r ->].
  unfold startswith. by rewrite prefix_app.
Qed.

(** X5: two [ios_sim_arm64] branches in a row are each duplicated, the
    copy of the first placed before the second marker line. *)
Theorem adjacent_blocks_each_duplicated
    (pre : list string) (m1 : string) (body1 : list string)
    (ws tail : string) (body2 rest : list string) :
  Forall (fun l => is_marker l = false) pre -> is_marker m1 = true ->
  Forall (fun l => is_terminator l = false) body1 ->
  Forall (fun c => isspace c = true) (chars ws) ->
  Forall (fun l => is_terminator l = false) body2 -> block_end rest ->
  (duplicate_blocks
     (pre ++ m1 :: body1 ++ (ws +:+ sim_arm64_marker +:+ tail) :: body2 ++ rest)).1
  = pre ++ m1 :: body1 ++ x86_block (block_indent body1) body1
    ++ (ws +:+ sim_arm64_marker +:+ tail) :: body2
    ++ x86_block (block_indent body2) body2 ++ (duplicate_blocks rest).1.
Proof.
  intros Hpre Hm1 Hb1 Hws Hb2 Hr.
  destruct (indented_marker_is_terminator ws tail Hws) as [Hm2 Ht2].
  rewrite duplicate_blocks_first_block by done.
  by rewrite duplicate_blocks_cons_marker by done.
Qed.

(** ** Backups and second runs *)

Lemma backup_path_fresh (p : string) : backup_path timestamp p <> p.
Proof.
  intros E. apply (f_equal String.length) in E.
  unfold backup_path in E. rewrite !length_app_s in E. simpl in E. lia.
Qed.

Lemma written_files (p c c' : string) (w : world) (evs : list event) :
  let w' := World (<[p := c']> (<[backup_path timestamp p := c]> (files w))) evs in
  files w' !! p = Some c'
  /\ files w' !! backup_path timestamp p = Some c
  /\ (forall q, q <> p -> q <> backup_path timestamp p -> files w' !! q = files w !! q).
Proof.
  cbn [files]. split_and!.
  - apply lookup_insert_eq.
  - rewrite lookup_insert_ne by (intros E; by apply (backup_path_fresh p)).
    apply lookup_insert_eq.
  - intros q H1 H2. by rewrite !lookup_insert_ne.
Qed.

(** X1: a numbered step, or the genrule step, that patches a file
    leaves the stored content it found in the backup file, the rewrite
    of the content it read in the file, and every other file as it
    was. *)
Theorem backup_holds_original (w : world) (p c : string) :
  files w !! p = Some c ->
  Forall (fun s =>
            contains (step_patched s) c = false ->
            exists w',
              step_run s p false w = Some (true, w')
              /\ files w' !! backup_path timestamp p = Some c
              /\ files w' !! p = Some (step_rewrite s (universal_newlines c))
              /\ (forall q, q <> p -> q <> backup_path timestamp p ->
                    files w' !! q = files w !! q))
         (numbered_steps timestamp)
  /\ (contains "ios_x86_64" c = false ->
      forall n, exists n' w',
        patch_genrule_file timestamp p false n w = Some (n', w')
        /\ files w' !! backup_path timestamp p = Some c
        /\ files w' !! p = Some (patch_genrule_content (universal_newlines c)).1
        /\ (forall q, q <> p -> q <> backup_path timestamp p ->
              files w' !! q = files w !! q)).
Proof.
  intros H. split.
  - each_step ltac:(
      intros Hc;
      first [ rewrite <- (ios_sim_x86_64_newlines c) in Hc
            | rewrite <- (debug_sim_x86_64_newlines c) in Hc ];
      numbered_shape;
      (eexists; split; [by apply (patch_with_write _ _ _ _ _ p c)|]);
      match goal with
      | |- context [World (<[p := ?c']> _) ?evs] =>
          destruct (written_files p c c' w evs) as (H1 & H2 & H3)
      end; done).
  - intros Hc n. rewrite <- (ios_x86_64_newlines c) in Hc.
    do 2 eexists. split; [by apply (genrule_file_write p c)|].
    match goal with
    | |- context [World (<[p := ?c']> _) ?evs] =>
        destruct (written_files p c c' w evs) as (H1 & H2 & H3)
    end; done.
Qed.

Lemma numbered_steps_are_patch_with :
  Forall (fun s => exists label dry_msg done_msg,
            step_run s
            = patch_with timestamp label (step_patched s) dry_msg (step_rewrite s) done_msg)
         (numbered_steps timestamp).
Proof.
  each_step ltac:(numbered_shape; do 3 eexists; reflexivity).
Qed.

Lemma genrule_content_flag (content : string) :
  (patch_genrule_content content).2 = contains sim_arm64_marker content.
Proof.
  unfold patch_genrule_content.
  destruct (contains sim_arm64_marker content) eqn:E; [|done].
  apply contains_some_line in E;
    [|vm_compute; intros H;
      repeat (apply elem_of_cons in H as [H|H]; [discriminate H|]);
      by apply elem_of_nil in H].
  apply first_marker_split in E as (pre & m & rest & E & Hpre & Hm).
  pose proof (duplicate_blocks_modified pre m rest Hpre Hm) as Hflag.
  rewrite <- E in Hflag.
  by destruct (duplicate_blocks (split NL content)) as [new_lines modified].
Qed.

Lemma genrule_content_marked (content : string) :
  contains sim_arm64_marker content = true ->
  contains "ios_x86_64" (patch_genrule_content content).1 = true.
Proof.
  intros E. pose proof (genrule_content_flag content) as Hflag. rewrite E in Hflag.
  unfold patch_genrule_content in *. rewrite E in *.
  apply contains_some_line in E;
    [|vm_compute; intros H;
      repeat (apply elem_of_cons in H as [H|H]; [discriminate H|]);
      by apply elem_of_nil in H].
  apply first_marker_split in E as (pre & m & rest & E & Hpre & Hm).
  destruct (collect_block_spec rest "") as (body & rest' & _ & -> & Hb & Hr).
  pose proof (duplicate_blocks_first_block pre m body rest' Hpre Hm Hb Hr) as Hout.
  rewrite <- E in Hout.
  destruct (duplicate_blocks (split NL content)) as [new_lines modified].
  simpl in *. subst.
  apply (contains_join _ _ (block_indent body +:+ x86_64_marker)).
  - apply elem_of_app. right. apply elem_of_cons. right.
    apply elem_of_app. right. apply elem_of_cons. by left.
  - by apply contains_app_r.
Qed.


Lemma patch_with_same (label patched dry_msg : string) (rewrite : string -> string)
    (done_msg : string) (p c : string) (w : world) :
  rewrite (universal_newlines c) = universal_newlines c -> files w !! p = Some c ->
  exists w',
    patch_with timestamp label patched dry_msg rewrite done_msg p false w = Some (true, w')
    /\ files w' !! p
       = Some (if contains patched (universal_newlines c) then c else universal_newlines c).
Proof.
  intros Hsame H. destruct (contains patched (universal_newlines c)) eqn:Hc.
  - eexists. split; [by apply (patch_with_already _ _ _ _ _ p c)|]. done.
  - eexists. split; [by apply (patch_with_write _ _ _ _ _ p c)|].
    cbn [files]. by rewrite lookup_insert_eq, Hsame.
Qed.

(** X7: a numbered step after the first whose file, as read, holds none
    of the texts it looks for still returns True; it leaves the file
    untouched when the already-patched test holds, and otherwise writes
    back the content it read, with nothing inserted. *)
Theorem absent_anchor_rewrites_nothing (w : world) (p c : string) :
  files w !! p = Some c ->
  Forall2 (fun s anchors =>
             Forall (fun a => contains a (universal_newlines c) = false) anchors ->
             exists w',
               step_run s p false w = Some (true, w')
               /\ files w' !! p
                  = Some (if contains (step_patched s) c then c else universal_newlines c))
          (tail (numbered_steps timestamp)) step_anchors.
Proof.
  intros H. unfold numbered_steps, step_anchors. cbn [tail].
  repeat (apply List.Forall2_cons;
          [cbn [step_run step_patched];
           first [ rewrite <- (ios_sim_x86_64_newlines c)
                 | rewrite <- (debug_sim_x86_64_newlines c) ];
           numbered_shape; intros Ha|]);
    [| | | | | | apply List.Forall2_nil].
  - inversion Ha as [|? ? H1 Ha']; subst. inversion Ha' as [|? ? H2 _]; subst.
    apply patch_with_same; [|done]. unfold webrtc_content.
    rewrite (replace_absent old_arch_specific_sources _ (universal_newlines c));
      [|intros E; vm_compute in E; discriminate E | done].
    apply replace_absent; [intros E; vm_compute in E; discriminate E | done].
  - inversion Ha as [|? ? H1 _]; subst.
    apply patch_with_same; [|done]. unfold libyuv_content, libyuv_pattern.
    by apply sub_absent.
  - inversion Ha as [|? ? H1 _]; subst.
    apply patch_with_same; [|done]. unfold openh264_content, openh264_pattern.
    rewrite (sub_absent sim_arm64_key _ _ _ (universal_newlines c)) by done.
    rewrite (sub_absent sim_arm64_key _ _ _ (universal_newlines c)) by done.
    by apply sub_absent.
  - inversion Ha as [|? ? H1 _]; subst.
    apply patch_with_same; [|done]. unfold libsrtp_content, libsrtp_pattern.
    by apply sub_absent.
  - inversion Ha as [|? ? H1 _]; subst.
    apply patch_with_same; [|done]. unfold crc32c_content, crc32c_pattern.
    by apply sub_absent.
  - inversion Ha as [|? ? H1 Ha']; subst. inversion Ha' as [|? ? H2 _]; subst.
    apply patch_with_same; [|done]. unfold make_py_content.
    rewrite (replace_absent old_release_arm64 _ (universal_newlines c));
      [|intros E; vm_compute in E; discriminate E | done].
    apply replace_absent; [intros E; vm_compute in E; discriminate E | done].
Qed.

(** X3: [modified] is True exactly when the content holds the marker,
    and then the new content holds [ios_x86_64], the text of the
    already-patched test. *)
Theorem genrule_modified_iff_marker (content : string) :
  (patch_genrule_content content).2 = contains sim_arm64_marker content
  /\ (contains sim_arm64_marker content = true ->
      contains "ios_x86_64" (patch_genrule_content content).1 = true).
Proof.
  split; [apply genrule_content_flag | apply genrule_content_marked].
Qed.

(** ** Which files a run can change *)

Lemma touches_same_files (ps : list string) (w w' : world) :
  files w' = files w -> touches ps w w'.
Proof. intros E. split; intros q; by rewrite E. Qed.

Lemma touches_trans (ps : list string) (w1 w2 w3 : world) :
  touches ps w1 w2 -> touches ps w2 w3 -> touches ps w1 w3.
Proof.
  intros [F1 K1] [F2 K2]. split.
  - intros q Hq Hb. rewrite F2, F1; done.
  - intros q Hq. by apply K2, K1.
Qed.

Lemma touches_mono (ps ps' : list string) (w w' : world) :
  (forall q, q ∈ ps -> q ∈ ps') -> touches ps w w' -> touches ps' w w'.
Proof. intros Hsub [F K]. split; [|done]. intros q Hq Hb. apply F; [|done]. eauto. Qed.

Lemma touches_write (p c c' : string) (w : world) (evs : list event) :
  files w !! p = Some c ->
  touches [p] w (World (<[p := c']> (<[backup_path timestamp p := c]> (files w))) evs).
Proof.
  intros H. split; cbn [files].
  - intros q Hq Hb. rewrite !lookup_insert_ne; [done| |].
    + intros E. by apply (backup_path_ne p q).
    + intros ->. apply Hq. by left.
  - intros q Hq. destruct (decide (p = q)) as [<-|]; [by rewrite lookup_insert_eq|].
    rewrite lookup_insert_ne by done.
    destruct (decide (backup_path timestamp p = q)) as [<-|];
      [by rewrite lookup_insert_eq | by rewrite lookup_insert_ne].
Qed.

Lemma patch_with_touches (label patched dry_msg : string) (rewrite : string -> string)
    (done_msg : string) (p : string) (dry_run : bool) (w : world) :
  exists r w',
    patch_with timestamp label patched dry_msg rewrite done_msg p dry_run w = Some (r, w')
    /\ touches [p] w w'.
Proof.
  destruct (files w !! p) as [c|] eqn:H.
  - destruct (contains patched (universal_newlines c)) eqn:Hc; [|destruct dry_run].
    + do 2 eexists. split; [by apply (patch_with_already _ _ _ _ _ p c)|].
      by apply touches_same_files.
    + do 2 eexists. split; [by apply (patch_with_dry_run _ _ _ _ _ p c)|].
      by apply touches_same_files.
    + do 2 eexists. split; [by apply (patch_with_write _ _ _ _ _ p c)|].
      by apply touches_write.
  - do 2 eexists. split; [by apply patch_with_missing|]. by apply touches_same_files.
Qed.

Lemma genrule_file_touches (p : string) (dry_run : bool) (n : nat) (w : world) :
  exists n' w',
    patch_genrule_file timestamp p dry_run n w = Some (n', w') /\ touches [p] w w'
    /\ (dry_run = false -> n' = n + (if will_modify w p then 1 else 0)).
Proof.
  unfold will_modify. destruct (files w !! p) as [c|] eqn:H.
  - rewrite <- (ios_x86_64_newlines c), <- (sim_arm64_marker_newlines c).
    destruct (contains "ios_x86_64" (universal_newlines c)) eqn:Hc; [|destruct dry_run].
    + do 2 eexists. split; [by apply (genrule_file_already p c)|].
      split; [by apply touches_same_files | simpl; lia].
    + do 2 eexists. split; [by apply (genrule_file_dry_run p c)|].
      split; [by apply touches_same_files | done].
    + do 2 eexists. split; [by apply (genrule_file_write p c)|].
      split; [by apply touches_write|]. intros _.
      rewrite genrule_content_flag. simpl.
      destruct (contains sim_arm64_marker (universal_newlines c)); lia.
  - do 2 eexists. split; [by apply genrule_file_missing|].
    split; [by apply touches_same_files | lia].
Qed.

Lemma will_modify_files (w w' : world) (p : string) :
  files w' !! p = files w !! p -> will_modify w' p = will_modify w p.
Proof. intros H. unfold will_modify. by rewrite H. Qed.

Lemma genrule_loop_touches (paths : list string) (dry_run : bool) (n : nat) (w : world) :
  NoDup paths -> Forall (fun q => contains ".backup." q = false) paths ->
  exists n' w',
    patch_genrule_loop timestamp paths dry_run n w = Some (n', w')
    /\ touches paths w w'
    /\ (dry_run = false -> n' = n + length (List.filter (will_modify w) paths)).
Proof.
  intros Hnd Hnb. revert n w.
  induction paths as [|p paths IH]; intros n w.
  - exists n, w. split_and!; [done | by apply touches_same_files | simpl; lia].
  - apply NoDup_cons in Hnd as [Hp Hnd]. apply Forall_cons in Hnb as [Hpb Hnb].
    destruct (genrule_file_touches p dry_run n w) as (n1 & w1 & E1 & T1 & C1).
    destruct (IH Hnd Hnb n1 w1) as (n2 & w2 & E2 & T2 & C2).
    exists n2, w2. split_and!.
    + cbn [patch_genrule_loop]. rewrite run_bind, E1. exact E2.
    + eapply touches_trans.
      * eapply touches_mono; [|exact T1]. intros q Hq.
        apply list_elem_of_singleton in Hq as ->. by left.
      * eapply touches_mono; [|exact T2]. intros q Hq. by right.
    + intros Hd. rewrite (C2 Hd), (C1 Hd).
      rewrite (filter_ext_in (will_modify w1) (will_modify w)).
      * simpl. destruct (will_modify w p); simpl; lia.
      * intros q Hq. apply will_modify_files. destruct T1 as [F1 _]. apply F1.
        -- intros Hin. apply list_elem_of_singleton in Hin as ->.
           apply Hp. by apply list_elem_of_In.
        -- rewrite Forall_forall in Hnb. apply Hnb. by apply list_elem_of_In.
Qed.

Lemma genrule_files_distinct :
  NoDup genrule_files /\ Forall (fun q => contains ".backup." q = false) genrule_files.
Proof.
  split.
  - apply (bool_decide_unpack _). by vm_compute.
  - by repeat constructor.
Qed.

(** *** The genrule pass, file by file *)

Lemma genrule_file_step (q : string) (dry_run : bool) (n : nat) (w : world) :
  exists n' w',
    patch_genrule_file timestamp q dry_run n w = Some (n', w')
    /\ extends w w' /\ touches [q] w w'.
Proof.
  destruct (genrule_file_total q dry_run n w) as (n1 & w1 & E1 & X1 & _).
  destruct (genrule_file_touches q dry_run n w) as (n2 & w2 & E2 & T2 & _).
  rewrite E1 in E2. injection E2 as <- <-. eauto.
Qed.

Lemma genrule_loop_step (paths : list string) (dry_run : bool) (n : nat) (w : world) :
  NoDup paths -> Forall (fun q => contains ".backup." q = false) paths ->
  exists n' w',
    patch_genrule_loop timestamp paths dry_run n w = Some (n', w')
    /\ extends w w' /\ touches paths w w'.
Proof.
  intros Hnd Hnb.
  destruct (genrule_loop_total paths dry_run n w) as (n1 & w1 & E1 & X1 & _).
  destruct (genrule_loop_touches paths dry_run n w Hnd Hnb) as (n2 & w2 & E2 & T2 & _).
  rewrite E1 in E2. injection E2 as <- <-. eauto.
Qed.

Lemma genrule_loop_backs_up (paths : list string) (n : nat) (w : world) (p c : string) :
  NoDup paths -> Forall (fun q => contains ".backup." q = false) paths ->
  p ∈ paths -> files w !! p = Some c -> contains "ios_x86_64" c = false ->
  exists n' w' evs,
    patch_genrule_loop timestamp paths false n w = Some (n', w')
    /\ log w' = log w ++ evs
    /\ Copy2 p (backup_path timestamp p) ∈ evs
    /\ WriteFile p (patch_genrule_content (universal_newlines c)).1 ∈ evs
    /\ files w' !! p = Some (patch_genrule_content (universal_newlines c)).1
    /\ is_Some (files w' !! backup_path timestamp p).
Proof.
  intros Hnd Hnb Hin H Hc. revert n w H.
  induction paths as [|q paths IH]; intros n w H; [by apply elem_of_nil in Hin|].
  apply NoDup_cons in Hnd as [Hq Hnd]. apply Forall_cons in Hnb as [Hqb Hnb].
  cbn [patch_genrule_loop]. rewrite run_bind.
  destruct (decide (p = q)) as [<-|Hne].
  - pose proof Hc as Hc'. rewrite <- (ios_x86_64_newlines c) in Hc'.
    rewrite (genrule_file_write p c n w H Hc').
    match goal with
    | |- context [patch_genrule_loop _ _ _ ?n1 ?w1] =>
        destruct (genrule_loop_step paths false n1 w1 Hnd Hnb)
          as (n2 & w2 & E2 & [evs2 L2] & [F2 K2])
    end.
    rewrite E2. do 3 eexists. split; [reflexivity|].
    split; [rewrite L2; cbn [log]; rewrite <- app_assoc; reflexivity|].
    split_and!.
    + rewrite !elem_of_app, !elem_of_cons. naive_solver.
    + rewrite !elem_of_app, !elem_of_cons. naive_solver.
    + rewrite F2 by done. eapply written_files.
    + apply K2. exists c. eapply written_files.
  - assert (p ∈ paths) as Hin' by (apply elem_of_cons in Hin as [?|?]; done).
    destruct (genrule_file_step q false n w) as (n1 & w1 & E1 & [evs1 L1] & [F1 K1]).
    rewrite E1.
    assert (files w1 !! p = Some c) as H1.
    { rewrite F1; [done | intros Hp; by apply list_elem_of_singleton in Hp |].
      rewrite Forall_forall in Hnb. by apply Hnb. }
    destruct (IH Hnd Hnb Hin' n1 w1 H1) as (n2 & w2 & evs2 & E2 & L2 & C2 & W2 & P2 & B2).
    exists n2, w2, (evs1 ++ evs2). split; [exact E2|].
    split; [by rewrite L2, L1, app_assoc|].
    split_and!; [| | done | done]; rewrite elem_of_app; by right.
Qed.

(** C9: outside dry-run, for every one of the genrule files that exists
    and does not contain [ios_x86_64], the pass copies the file to its
    timestamped backup and writes the file, whether or not the content
    has a marker; without a marker the content written is the content
    read. *)
Theorem genrule_backup_and_write_unconditional (w : world) (p c : string) :
  p ∈ genrule_files -> files w !! p = Some c -> contains "ios_x86_64" c = false ->
  exists r w' evs,
    patch_genrule_build_files timestamp false w = Some (r, w')
    /\ log w' = log w ++ evs
    /\ Copy2 p (backup_path timestamp p) ∈ evs
    /\ WriteFile p (patch_genrule_content (universal_newlines c)).1 ∈ evs
    /\ files w' !! p = Some (patch_genrule_content (universal_newlines c)).1
    /\ is_Some (files w' !! backup_path timestamp p)
    /\ (contains sim_arm64_marker c = false ->
        (patch_genrule_content (universal_newlines c)).1 = universal_newlines c).
Proof.
  intros Hin H Hc. destruct genrule_files_distinct as [Hnd Hnb].
  unfold patch_genrule_build_files. rewrite run_print.
  set (w0 := emit _ w).
  destruct (genrule_loop_backs_up genrule_files 0 w0 p c Hnd Hnb Hin H Hc)
    as (n & w1 & evs & E & L & C1 & C2 & P & B).
  rewrite run_bind, E. cbv beta iota. rewrite run_ret.
  do 3 eexists. split; [reflexivity|].
  split; [rewrite L; subst w0; unfold emit; cbn [log]; rewrite <- app_assoc; reflexivity|].
  split_and!; [| | done | done |];
    [apply elem_of_app; by right | apply elem_of_app; by right |].
  intros Hm. rewrite <- (sim_arm64_marker_newlines c) in Hm.
  unfold patch_genrule_content. by rewrite Hm.
Qed.

(** X8: outside dry-run the genrule pass returns True exactly when one
    of its files exists, lacks [ios_x86_64] and holds the marker; it
    removes no file and changes only its own files and backup files. *)
Theorem genrule_pass_result (w : world) :
  exists w',
    patch_genrule_build_files timestamp false w
    = Some (existsb (will_modify w) genrule_files, w')
    /\ touches genrule_files w w'.
Proof.
  destruct genrule_files_distinct as [Hnd Hnb].
  unfold patch_genrule_build_files. rewrite run_print.
  set (w0 := emit _ w).
  destruct (genrule_loop_touches genrule_files false 0 w0 Hnd Hnb) as (n & w1 & E & T & C).
  exists w1. rewrite run_bind, E. cbv beta iota. rewrite run_ret. split.
  - rewrite (C eq_refl), Nat.add_0_l, filter_nonempty_existsb. reflexivity.
  - eapply touches_trans; [|exact T]. by apply touches_same_files.
Qed.

Ltac step_touches w w' E T :=
  rewrite run_bind;
  match goal with
  | |- context [patch_with timestamp ?l ?pt ?d ?r ?dm ?p ?dry w] =>
      let b := fresh "b" in
      destruct (patch_with_touches l pt d r dm p dry w) as (b & w' & E & T);
      rewrite E; cbv beta iota;
      apply (touches_mono [p] all_targets) in T;
      [|let q := fresh "q" in let Hq := fresh "Hq" in
        intros q Hq; apply list_elem_of_singleton in Hq as ->;
        apply (bool_decide_unpack _); by vm_compute]
  end.

Lemma patch_all_touches (dry_run skip_genrules : bool) (w : world) :
  exists b w',
    patch_all timestamp dry_run skip_genrules w = Some (b, w')
    /\ touches all_targets w w'.
Proof.
  unfold patch_all. numbered_shape.
  step_touches w w1 E1 T1.
  step_touches w1 w2 E2 T2.
  step_touches w2 w3 E3 T3.
  step_touches w3 w4 E4 T4.
  step_touches w4 w5 E5 T5.
  step_touches w5 w6 E6 T6.
  step_touches w6 w7 E7 T7.
  assert (exists w8, (if negb skip_genrules
                      then patch_genrule_build_files timestamp dry_run;; mret ()
                      else mret ()) w7 = Some (tt, w8)
                     /\ touches all_targets w7 w8) as (w8 & E8 & T8).
  { destruct skip_genrules; cbn [negb].
    - exists w7. split; [done | by apply touches_same_files].
    - destruct genrule_files_distinct as [Hnd Hnb].
      unfold patch_genrule_build_files. rewrite run_bind, run_print.
      set (w0 := emit _ w7).
      destruct (genrule_loop_touches genrule_files dry_run 0 w0 Hnd Hnb)
        as (n & w8 & E & T & _).
      exists w8. rewrite run_bind, E. split; [done|].
      eapply touches_trans; [by apply (touches_same_files _ w7 w0)|].
      eapply touches_mono; [|exact T]. intros q Hq. unfold all_targets.
      apply elem_of_app. by right. }
  rewrite run_bind, E8. cbv beta iota. rewrite run_ret.
  do 2 eexists. split; [reflexivity|].
  eapply touches_trans; [exact T1|]. eapply touches_trans; [exact T2|].
  eapply touches_trans; [exact T3|]. eapply touches_trans; [exact T4|].
  eapply touches_trans; [exact T5|]. eapply touches_trans; [exact T6|].
  eapply touches_trans; [exact T7|]. exact T8.
Qed.

(** X9: whatever the flags, [main] returns; it removes no file, and a
    file that is neither one of its fifteen targets nor a backup file
    keeps its content. *)
Theorem main_touches_only_targets (dry_run skip_genrules : bool) (w : world) :
  exists code w',
    main timestamp dry_run skip_genrules w = Some (code, w')
    /\ touches all_targets w w'.
Proof.
  destruct (files w !! "build-system/BUILD") as [c|] eqn:H.
  - unfold main. run.
    set (w0 := (if dry_run
                then emit (Print (nl +:+ "*** DRY RUN MODE - No files will be modified ***" +:+ nl))
                else fun w => w)
                 (emit (Print (str_mul "=" 60))
                    (emit (Print "Telegram-iOS Intel x86_64 Support Patch")
                       (emit (Print (str_mul "=" 60)) w)))).
    assert (files w0 = files w) as F0 by (unfold w0; by destruct dry_run).
    destruct (patch_all_touches dry_run skip_genrules w0) as (b & w1 & E1 & T1).
    destruct (report_total dry_run b w1) as (w2 & E2 & [F2 _]).
    exists 0, w2. split.
    + assert (files w0 !! "build-system/BUILD" = Some c) as H0 by (by rewrite F0).
      unfold w0 in *. destruct dry_run; run;
        rewrite (exists_true _ c) by done; cbn [negb];
        rewrite run_bind, E1; cbv beta iota; rewrite run_bind, E2; done.
    + eapply touches_trans; [by apply (touches_same_files _ w w0)|].
      eapply touches_trans; [exact T1 | by apply touches_same_files].
  - destruct (main_total dry_run skip_genrules w) as [Hno _].
    destruct (Hno H) as (evs & E & _). rewrite E.
    eexists 1, _. split; [reflexivity | by apply touches_same_files].
Qed.

(** ** Lines and content, the other way round *)

Lemma split_line_then_newline (x rest : string) :
  NL ∉ chars x -> split NL (x +:+ String NL rest) = x :: split NL rest.
Proof.
  induction x as [|c x IH]; intros H; [done|].
  simpl in H. apply not_elem_of_cons in H as [Hc Hx].
  change (String c x +:+ String NL rest) with (String c (x +:+ String NL rest)).
  cbn [split]. rewrite (IH Hx).
  destruct (Ascii.eqb_spec c NL) as [->|_]; done.
Qed.

Lemma split_one_line (x : string) : NL ∉ chars x -> split NL x = [x].
Proof.
  induction x as [|c x IH]; intros H; [done|].
  simpl in H. apply not_elem_of_cons in H as [Hc Hx].
  cbn [split]. rewrite (IH Hx).
  destruct (Ascii.eqb_spec c NL) as [->|_]; done.
Qed.

(** X10: [split] and [join] on the newline undo each other: joining the
    lines of a content gives the content back, and splitting the join
    of lines that hold no newline gives the lines back. *)
Theorem split_join_round_trip :
  (forall content, join nl (split NL content) = content)
  /\ (forall l lines, Forall (fun x => NL ∉ chars x) (l :: lines) ->
        split NL (join nl (l :: lines)) = l :: lines).
Proof.
  split; [apply join_split|].
  intros l lines. revert l. induction lines as [|y lines IH]; intros l H.
  - apply split_one_line. by apply Forall_inv in H.
  - apply Forall_cons in H as [Hl H].
    rewrite join_cons_cons. change (nl +:+ join nl (y :: lines))
      with (String NL (join nl (y :: lines))).
    rewrite split_line_then_newline by done. by rewrite IH.
Qed.

End Steps.

(** ** A second run, at another time *)

Lemma patch_with_twice (ts1 ts2 : string -> string)
    (label patched dry_msg : string) (rewrite : string -> string)
    (done_msg : string) (p c : string) (w : world) :
  CR ∉ chars patched -> NL ∉ chars patched ->
  (forall x, rewrite x = x \/ contains patched (rewrite x) = true) ->
  files w !! p = Some c ->
  exists w1 w2 c1,
    patch_with ts1 label patched dry_msg rewrite done_msg p false w = Some (true, w1)
    /\ files w1 !! p = Some c1
    /\ patch_with ts2 label patched dry_msg rewrite done_msg p false w1 = Some (true, w2)
    /\ files w2 !! p = Some c1
    /\ (contains patched c = false -> backup_path ts2 p <> backup_path ts1 p ->
        files w2 !! backup_path ts1 p = Some c).
Proof.
  intros Hcr Hnl Hd H.
  pose proof (contains_newlines patched c Hcr Hnl) as Hread.
  destruct (contains patched (universal_newlines c)) eqn:Hc.
  - do 3 eexists. split; [by apply (patch_with_already ts1 _ _ _ _ _ p c)|].
    split; [exact H|].
    split; [by apply (patch_with_already ts2 _ _ _ _ _ p c)|].
    split; [exact H | congruence].
  - pose proof (patch_with_write ts1 label patched dry_msg rewrite done_msg p c w H Hc) as E1.
    match type of E1 with
    | _ = Some (_, World ?fs ?evs) =>
        destruct (written_files ts1 p c (rewrite (universal_newlines c)) w evs)
          as (H1 & Hb1 & _);
        exists (World fs evs)
    end.
    destruct (contains patched
                (universal_newlines (rewrite (universal_newlines c)))) eqn:Hc'.
    + do 2 eexists. split; [exact E1|]. split; [exact H1|].
      split; [by apply (patch_with_already ts2 _ _ _ _ _ p
                          (rewrite (universal_newlines c)))|].
      split; [exact H1 | intros _ _; exact Hb1].
    + assert (rewrite (universal_newlines c) = universal_newlines c) as Hsame.
      { rewrite (contains_newlines patched _ Hcr Hnl) in Hc'.
        destruct (Hd (universal_newlines c)); congruence. }
      rewrite Hsame in *.
      do 2 eexists. split; [exact E1|]. split; [exact H1|].
      split; [apply (patch_with_write ts2 _ _ _ _ _ p (universal_newlines c));
              [exact H1 | exact Hc']|].
      rewrite universal_newlines_idem, Hsame. cbn [files].
      split; [by rewrite lookup_insert_eq|].
      intros _ Hne.
      rewrite lookup_insert_ne by (intros E; by apply (backup_path_fresh ts1 p)).
      rewrite lookup_insert_ne by done.
      rewrite lookup_insert_ne by (intros E; by apply (backup_path_fresh ts1 p)).
      apply lookup_insert_eq.
Qed.

(** X2: a second run of a numbered step, at the same or another time,
    leaves in the file the content the first run left; when the second
    backup has another name, the first backup still holds the content
    stored before the first run. *)
Theorem second_run_keeps_content (ts1 ts2 : string -> string) (w : world) (p c : string) :
  files w !! p = Some c ->
  Forall2 (fun s1 s2 =>
             exists w1 w2 c1,
               step_run s1 p false w = Some (true, w1)
               /\ files w1 !! p = Some c1
               /\ step_run s2 p false w1 = Some (true, w2)
               /\ files w2 !! p = Some c1
               /\ (contains (step_patched s1) c = false ->
                   backup_path ts2 p <> backup_path ts1 p ->
                   files w2 !! backup_path ts1 p = Some c))
          (numbered_steps ts1) (numbered_steps ts2).
Proof.
  intros H.
  pose proof (rewrites_same_or_marked ts1) as Hd.
  destruct (numbered_steps_shape ts1) as (A1 & A2 & A3 & A4 & A5 & A6 & A7).
  destruct (numbered_steps_shape ts2) as (B1 & B2 & B3 & B4 & B5 & B6 & B7).
  unfold numbered_steps in *.
  repeat (apply List.Forall2_cons;
          [apply Forall_inv in Hd; cbn [step_run step_patched step_rewrite] in *;
           rewrite ?A1, ?A2, ?A3, ?A4, ?A5, ?A6, ?A7, ?B1, ?B2, ?B3, ?B4, ?B5, ?B6, ?B7;
           apply patch_with_twice; [clean_text | clean_text | exact Hd | exact H]
          | apply Forall_inv_tail in Hd]).
  apply List.Forall2_nil.
Qed.

(** ** Closed examples *)

Lemma not_in_chars (x : ascii) (s : string) :
  existsb (Ascii.eqb x) (chars s) = false -> x ∉ chars s.
Proof.
  intros E Hin. apply list_elem_of_In in Hin.
  assert (existsb (Ascii.eqb x) (chars s) = true) as E'
    by (apply existsb_exists; exists x; split; [done | apply Ascii.eqb_refl]).
  congruence.
Qed.

(** C3 fails as stated: the first step, on a [build-system/BUILD] that
    holds [# my rules], leaves content without any [#], so the original
    content is not preserved. *)
Lemma build_system_build_overwrites :
  exists w',
    patch_build_system_build sample_stamp "build-system/BUILD" false
      (one_file "build-system/BUILD" "# my rules")
    = Some (true, w')
    /\ files w' !! "build-system/BUILD" = Some new_config_settings
    /\ ~ subtext "# my rules" new_config_settings.
Proof.
  eexists. split_and!.
  - vm_compute. reflexivity.
  - vm_compute. reflexivity.
  - intros H. apply sublist_subseteq in H.
    apply (not_in_chars "#" new_config_settings); [vm_compute; reflexivity|].
    apply H. simpl. by left.
Qed.

Lemma patches_after_first_only_insert_witness :
  exists r w' c',
    patch_libsrtp_build sample_stamp "third-party/webrtc/libsrtp/BUILD" false
      (one_file "third-party/webrtc/libsrtp/BUILD" sample_select_crlf)
    = Some (r, w')
    /\ files w' !! "third-party/webrtc/libsrtp/BUILD" = Some c'
    /\ (c' = sample_select_crlf \/ subtext (universal_newlines sample_select_crlf) c').
Proof.
  destruct (patches_after_first_only_insert sample_stamp
              (one_file "third-party/webrtc/libsrtp/BUILD" sample_select_crlf)
              "third-party/webrtc/libsrtp/BUILD" sample_select_crlf false) as [H _].
  - vm_compute. reflexivity.
  - do 3 apply Forall_inv_tail in H. apply Forall_inv in H as [_ H]. exact H.
Defined.

(** C7 fails as stated: on a tree whose only genrule file has no marker
    and no [ios_x86_64], the genrule pass returns True with the dry-run
    flag and False without it. *)
Lemma genrule_dry_run_result_differs :
  fst <$> patch_genrule_build_files sample_stamp true
            (one_file "third-party/opus/BUILD" "cc -arch arm64")
  = Some true
  /\ fst <$> patch_genrule_build_files sample_stamp false
               (one_file "third-party/opus/BUILD" "cc -arch arm64")
     = Some false.
Proof. split; vm_compute; reflexivity. Qed.

Lemma no_marker_line_changes_nothing_witness :
  exists w',
    patch_genrule_file sample_stamp "third-party/opus/BUILD" false 0
      (one_file "third-party/opus/BUILD" sample_plain_crlf)
    = Some (0, w')
    /\ files w' !! "third-party/opus/BUILD" = Some ("cc -arch arm64" +:+ nl).
Proof.
  destruct (no_marker_line_changes_nothing sample_stamp) as (_ & _ & H & _).
  rewrite (H "third-party/opus/BUILD" sample_plain_crlf 0
             (one_file "third-party/opus/BUILD" sample_plain_crlf)).
  - eexists. split; [reflexivity|]. vm_compute. reflexivity.
  - vm_compute. reflexivity.
  - vm_compute. reflexivity.
  - vm_compute. repeat constructor.
Defined.

Lemma already_patched_is_noop_witness :
  exists evs,
    patch_webrtc_build sample_stamp "third-party/webrtc/BUILD" false
      (one_file "third-party/webrtc/BUILD" "# ios_sim_x86_64 is set up")
    = Some (true, World (files (one_file "third-party/webrtc/BUILD" "# ios_sim_x86_64 is set up"))
                    ([] ++ evs)).
Proof.
  destruct (already_patched_is_noop sample_stamp
              (one_file "third-party/webrtc/BUILD" "# ios_sim_x86_64 is set up")
              "third-party/webrtc/BUILD" "# ios_sim_x86_64 is set up" false) as [H _].
  - vm_compute. reflexivity.
  - apply Forall_inv_tail, Forall_inv in H.
    destruct H as (evs & E & _); [vm_compute; reflexivity|].
    exists evs. exact E.
Defined.


(** ** Closed examples of the further properties *)

Lemma backup_holds_original_witness :
  exists w',
    patch_libsrtp_build sample_stamp "third-party/webrtc/libsrtp/BUILD" false
      (one_file "third-party/webrtc/libsrtp/BUILD" sample_select_crlf)
    = Some (true, w')
    /\ files w' !! backup_path sample_stamp "third-party/webrtc/libsrtp/BUILD"
       = Some sample_select_crlf.
Proof.
  destruct (backup_holds_original sample_stamp
              (one_file "third-party/webrtc/libsrtp/BUILD" sample_select_crlf)
              "third-party/webrtc/libsrtp/BUILD" sample_select_crlf) as [H _].
  - vm_compute. reflexivity.
  - do 4 apply Forall_inv_tail in H. apply Forall_inv in H.
    destruct H as (w' & E & Hb & _); [vm_compute; reflexivity|].
    exists w'. split; [exact E | exact Hb].
Defined.

Lemma second_run_keeps_content_witness :
  exists w1 w2 c1,
    patch_libsrtp_build sample_stamp "third-party/webrtc/libsrtp/BUILD" false
      (one_file "third-party/webrtc/libsrtp/BUILD" sample_select_crlf)
    = Some (true, w1)
    /\ files w1 !! "third-party/webrtc/libsrtp/BUILD" = Some c1
    /\ patch_libsrtp_build later_stamp "third-party/webrtc/libsrtp/BUILD" false w1
       = Some (true, w2)
    /\ files w2 !! "third-party/webrtc/libsrtp/BUILD" = Some c1
    /\ files w2 !! backup_path sample_stamp "third-party/webrtc/libsrtp/BUILD"
       = Some sample_select_crlf.
Proof.
  pose proof (second_run_keeps_content sample_stamp later_stamp
                (one_file "third-party/webrtc/libsrtp/BUILD" sample_select_crlf)
                "third-party/webrtc/libsrtp/BUILD" sample_select_crlf
                ltac:(vm_compute; reflexivity)) as H.
  unfold numbered_steps in H.
  do 4 (apply Forall2_cons_1 in H as [_ H]).
  apply Forall2_cons_1 in H as [H _].
  destruct H as (w1 & w2 & c1 & E1 & H1 & E2 & H2 & Hb).
  exists w1, w2, c1. split_and!; [exact E1 | exact H1 | exact E2 | exact H2 |].
  apply Hb; [vm_compute; reflexivity | vm_compute; discriminate].
Defined.

Lemma genrule_modified_iff_marker_witness :
  contains "ios_x86_64" (patch_genrule_content sample_genrule).1 = true.
Proof.
  destruct (genrule_modified_iff_marker sample_genrule) as [_ H].
  apply H. vm_compute. reflexivity.
Defined.

Lemma adjacent_blocks_each_duplicated_witness :
  (duplicate_blocks
     ["if a; then"; sim_arm64_marker; "  cc arm64";
      "  " +:+ sim_arm64_marker +:+ " # again"; "  ld aarch64"; "fi"]).1
  = ["if a; then"; sim_arm64_marker; "  cc arm64";
     "  " +:+ x86_64_marker; "  cc x86_64";
     "  " +:+ sim_arm64_marker +:+ " # again"; "  ld aarch64";
     "  " +:+ x86_64_marker; "  ld x86_64"; "fi"].
Proof.
  apply (adjacent_blocks_each_duplicated
           ["if a; then"] sim_arm64_marker ["  cc arm64"] "  " " # again"
           ["  ld aarch64"] ["fi"]).
  - repeat constructor.
  - reflexivity.
  - repeat constructor.
  - repeat constructor.
  - repeat constructor.
  - reflexivity.
Defined.


Lemma absent_anchor_rewrites_nothing_witness :
  exists w',
    patch_webrtc_build sample_stamp "third-party/webrtc/BUILD" false
      (one_file "third-party/webrtc/BUILD" sample_plain_crlf)
    = Some (true, w')
    /\ files w' !! "third-party/webrtc/BUILD" = Some ("cc -arch arm64" +:+ nl).
Proof.
  pose proof (absent_anchor_rewrites_nothing sample_stamp
                (one_file "third-party/webrtc/BUILD" sample_plain_crlf)
                "third-party/webrtc/BUILD" sample_plain_crlf
                ltac:(vm_compute; reflexivity)) as H.
  apply Forall2_cons_1 in H as [H _].
  apply H. repeat constructor.
Defined.

Lemma split_join_round_trip_witness :
  split NL (join nl ["if a; then"; ""; "fi"]) = ["if a; then"; ""; "fi"].
Proof.
  destruct split_join_round_trip as [_ H]. apply H.
  repeat constructor; vm_compute; intros Hin;
    repeat (apply elem_of_cons in Hin as [Hin|Hin]; [discriminate Hin|]);
    by apply elem_of_nil in Hin.
Defined.

Lemma genrule_backup_and_write_unconditional_witness :
  exists r w' evs,
    patch_genrule_build_files sample_stamp false
      (one_file "third-party/opus/BUILD" sample_plain_crlf)
    = Some (r, w')
    /\ log w' = [] ++ evs
    /\ Copy2 "third-party/opus/BUILD" (backup_path sample_stamp "third-party/opus/BUILD") ∈ evs
    /\ WriteFile "third-party/opus/BUILD" ("cc -arch arm64" +:+ nl) ∈ evs
    /\ files w' !! "third-party/opus/BUILD" = Some ("cc -arch arm64" +:+ nl).
Proof.
  destruct (genrule_backup_and_write_unconditional sample_stamp
              (one_file "third-party/opus/BUILD" sample_plain_crlf)
              "third-party/opus/BUILD" sample_plain_crlf)
    as (r & w' & evs & E & L & C1 & C2 & P & _).
  - apply (bool_decide_unpack _). vm_compute. exact I.
  - vm_compute. reflexivity.
  - vm_compute. reflexivity.
  - exists r, w', evs. split_and!; [exact E | exact L | exact C1 | exact C2 | exact P].
Defined.
